(** * File-integrity monitor ([file_monitor.py]): embedding and properties

    The development follows the module top to bottom: the fingerprint
    ([calculate_crc32_checksum]), the two-table SQLite store with its
    cursor ([insert_file], [insert_event]), the baseline scan
    ([scan_directory]), the four watchdog handlers of [FileEventHandler]
    and the start-up sequence ([monitor_directories]). *)

From Stdlib Require Import ZArith Strings.String Strings.Ascii Strings.Byte Sorting.Sorted.
From stdpp Require Import gmap strings list.

Local Open Scope Z_scope.

Set Warnings "-register-all".

(** ** Python values

    The values the module passes around: [None], integers, strings, lists
    and dictionaries with string keys (kept in insertion order). *)

Inductive pyval : Type :=
| PyNone
| PyInt (z : Z)
| PyStr (s : string)
| PyList (l : list pyval)
| PyDict (d : list (string * pyval)).

(** Truth value of an object, as tested by [if x:]. *)
Definition truthy (v : pyval) : bool :=
  match v with
  | PyNone => false
  | PyInt z => negb (z =? 0)
  | PyStr s => negb (String.eqb s EmptyString)
  | PyList l => match l with [] => false | _ => true end
  | PyDict d => match d with [] => false | _ => true end
  end.

Definition pyval_is_none (v : pyval) : bool :=
  match v with PyNone => true | _ => false end.

(** ** Fingerprint engine *)

Module Fingerprint.

(** [zlib.crc32(data, value)]: the reflected CRC-32 with polynomial
    [0xEDB88320], resumed from the running value [value]. *)

Definition crc_shift (c : Z) : Z :=
  if Z.testbit c 0 then Z.lxor (Z.shiftr c 1) 0xEDB88320 else Z.shiftr c 1.

Definition crc_byte (c : Z) (b : byte) : Z :=
  let c0 := Z.lxor c (Z.of_N (Byte.to_N b)) in
  crc_shift (crc_shift (crc_shift (crc_shift
    (crc_shift (crc_shift (crc_shift (crc_shift c0))))))).

Definition crc32 (data : list byte) (value : Z) : Z :=
  Z.lxor (fold_left crc_byte data (Z.lxor value 0xFFFFFFFF)) 0xFFFFFFFF.

(** [format(n, '08x')] for a non-negative [n]: lower-case hexadecimal,
    padded with zeros on the left to a width of at least eight. *)

Definition hex_digit (d : Z) : ascii :=
  if d <? 10 then ascii_of_nat (Z.to_nat (48 + d))
  else ascii_of_nat (Z.to_nat (87 + d)).

Fixpoint hex_of (fuel : nat) (n : Z) (acc : string) : string :=
  match fuel with
  | O => acc
  | S fuel' =>
      let acc' := String (hex_digit (n mod 16)) acc in
      if n <? 16 then acc' else hex_of fuel' (n / 16) acc'
  end.

Fixpoint zero_pad (k : nat) (s : string) : string :=
  match k with
  | O => s
  | S k' => String "0"%char (zero_pad k' s)
  end.

Definition format_08x (n : Z) : string :=
  let digits := hex_of (S (Z.to_nat (Z.log2 n))) n EmptyString in
  zero_pad (8 - String.length digits)%nat digits.

(** [file.read(8192)]: the chunk size of the read loop. *)
Definition CHUNK : nat := Z.to_nat 8192.

(** The [while chunk := file.read(8192)] loop over the unread rest of
    the file.  Every iteration that does not stop consumes at least one
    byte, so [S (length rest)] iterations always reach the empty chunk. *)
Fixpoint read_loop (fuel : nat) (rest : list byte) (checksum : Z) : Z :=
  match fuel with
  | O => checksum
  | S fuel' =>
      match take CHUNK rest with
      | [] => checksum
      | chunk => read_loop fuel' (drop CHUNK rest) (crc32 chunk checksum)
      end
  end.

Definition checksum_of_bytes (content : list byte) : Z :=
  read_loop (S (length content)) content 0.

End Fingerprint.

(** ** The environment of one call

    What the operating system answers while one handler (or one scan)
    runs: file metadata and contents, directory enumeration, the path
    functions of [os.path], the current user, the privilege probe and the
    clock.  Time stamps are the strings [strftime('%Y-%m-%d %H:%M:%S')]
    produces. *)

Record FileStat := {
  st_ctime : string;                 (* formatted os.path.getctime *)
  st_mtime : string;                 (* formatted os.path.getmtime *)
  st_data : option (list byte)       (* None: open() raises PermissionError *)
}.

Record OS := {
  fs : string -> option FileStat;    (* None: FileNotFoundError *)
  walk : string -> list (string * list string);  (* os.walk: (root, files) *)
  path_join : string -> string -> string;        (* os.path.join *)
  basename : string -> string;                   (* os.path.basename *)
  getuser : string;                              (* getpass.getuser() *)
  IsUserAnAdmin : option Z;          (* shell32.IsUserAnAdmin(); None: raises *)
  now : string                       (* formatted datetime.now() *)
}.

Definition is_admin (os : OS) : bool :=
  match IsUserAnAdmin os with
  | Some r => negb (r =? 0)
  | None => false
  end.

(** [role = "Admin" if is_admin() else "Standard User"] *)
Definition current_role (os : OS) : string :=
  if is_admin os then "Admin"%string else "Standard User"%string.

Definition calculate_crc32_checksum (os : OS) (filepath : string) : pyval :=
  match fs os filepath with
  | None => PyNone                                  (* FileNotFoundError *)
  | Some st =>
      match st_data st with
      | None => PyNone                              (* PermissionError *)
      | Some content =>
          PyStr (Fingerprint.format_08x
                   (Z.land (Fingerprint.checksum_of_bytes content) 0xFFFFFFFF))
      end
  end.

(** ** The store: tables [Files] and [Events], connection and cursor *)

(** A row of [Files], columns in the order of [CREATE TABLE] in
    [database.py]; this is also the order of the tuple [SELECT *]
    returns. *)
Record FilesRow := {
  file_id : Z;
  filename : pyval;
  file_path : pyval;
  creation_time : pyval;
  modification_time : pyval;
  deletion_time : pyval;
  hash_value : pyval;
  user : pyval;
  role : pyval
}.

Record EventsRow := {
  event_id : Z;
  event_type : pyval;
  event_time : pyval;
  ev_file_id : pyval
}.

(** [result[i]] on a fetched [Files] row. *)
Definition row_tuple (r : FilesRow) : list pyval :=
  [PyInt (file_id r); filename r; file_path r; creation_time r;
   modification_time r; deletion_time r; hash_value r; user r; role r].

Definition col (r : FilesRow) (i : nat) : pyval :=
  nth i (row_tuple r) PyNone.

(** The content of the database file.  Both tables are kept in ascending
    rowid order, the order in which SQLite walks a table that has no
    index; [seq_Files] and [seq_Events] are the [sqlite_sequence] entries
    that [AUTOINCREMENT] maintains. *)
Record Tables := {
  Files : list FilesRow;
  Events : list EventsRow;
  seq_Files : Z;
  seq_Events : Z
}.

(** The module-level [conn] and [cursor].  [working] is what the
    connection sees (committed content plus the open transaction),
    [committed] is what is on disk; [io_faults] lists, for the
    statements still to come that the storage layer can refuse (the
    [execute] of an INSERT and the [commit] that follows it), whether it
    will ([true]: the call raises), and an exhausted list means no
    further refusal. *)
Record Store := {
  committed : Tables;
  working : Tables;
  lastrowid : pyval;
  io_faults : list bool
}.

Definition max_rowid (ids : list Z) : Z := foldr Z.max 0 ids.

(** The rowid an [AUTOINCREMENT] key gets: one more than the largest
    rowid the table holds or has ever held. *)
Definition next_rowid (seq : Z) (ids : list Z) : Z :=
  1 + Z.max seq (max_rowid ids).

Definition commit (s : Store) : Store :=
  {| committed := working s; working := working s;
     lastrowid := lastrowid s; io_faults := io_faults s |}.

Definition rollback (s : Store) : Store :=
  {| committed := committed s; working := committed s;
     lastrowid := lastrowid s; io_faults := io_faults s |}.

(** Outcome of [cursor.execute] on an INSERT. *)
Inductive executed :=
| Inserted (s : Store)
| SqlError (s : Store).

Definition next_fault (s : Store) : bool :=
  match io_faults s with
  | [] => false
  | b :: _ => b
  end.

Definition consume_fault (s : Store) : Store :=
  {| committed := committed s; working := working s;
     lastrowid := lastrowid s; io_faults := tail (io_faults s) |}.

(** [INSERT INTO Files(...) VALUES(?, ...)]: refused by the storage layer
    or by one of the two [NOT NULL] columns; otherwise the row is added
    to the open transaction and [cursor.lastrowid] becomes its key.  A
    refused statement leaves [lastrowid] as it was. *)
Definition execute_insert_Files (s : Store)
    (filename filepath creation_time modification_time deletion_time
       checksum user role : pyval) : executed :=
  let s0 := consume_fault s in
  if next_fault s || pyval_is_none filename || pyval_is_none filepath
  then SqlError s0
  else
    let t := working s in
    let id := next_rowid (seq_Files t) (map file_id (Files t)) in
    let row := {| file_id := id; filename := filename; file_path := filepath;
                  creation_time := creation_time;
                  modification_time := modification_time;
                  deletion_time := deletion_time; hash_value := checksum;
                  user := user; role := role |} in
    Inserted {| committed := committed s;
                working := {| Files := Files t ++ [row]; Events := Events t;
                              seq_Files := id; seq_Events := seq_Events t |};
                lastrowid := PyInt id;
                io_faults := io_faults s0 |}.

(** [INSERT INTO Events(...) VALUES(?, ?, ?)].  Foreign keys are not
    enforced (the connection never turns them on), so any [file_id] is
    accepted. *)
Definition execute_insert_Events (s : Store)
    (event_type event_time file_id : pyval) : executed :=
  let s0 := consume_fault s in
  if next_fault s || pyval_is_none event_type
  then SqlError s0
  else
    let t := working s in
    let id := next_rowid (seq_Events t) (map event_id (Events t)) in
    let row := {| event_id := id; event_type := event_type;
                  event_time := event_time; ev_file_id := file_id |} in
    Inserted {| committed := committed s;
                working := {| Files := Files t; Events := Events t ++ [row];
                              seq_Files := seq_Files t; seq_Events := id |};
                lastrowid := PyInt id;
                io_faults := io_faults s0 |}.

(** [insert_file] and [insert_event]: [execute] and [commit] sit in one
    [try]; whichever raises, the [except] clause prints and rolls back.
    When it is [commit] that raises, the INSERT has run: its row is
    rolled back but [cursor.lastrowid] keeps the key it was given. *)
Definition insert_file (s : Store)
    (filename filepath creation_time modification_time deletion_time
       checksum user role : pyval) : Store :=
  match execute_insert_Files s filename filepath creation_time
          modification_time deletion_time checksum user role with
  | Inserted s' =>
      if next_fault s' then rollback (consume_fault s')
      else commit (consume_fault s')
  | SqlError s' => rollback s'
  end.

Definition insert_event (s : Store) (event_type event_time file_id : pyval)
  : Store :=
  match execute_insert_Events s event_type event_time file_id with
  | Inserted s' =>
      if next_fault s' then rollback (consume_fault s')
      else commit (consume_fault s')
  | SqlError s' => rollback s'
  end.

(** The sequence every writer uses: [insert_file(...)], then
    [file_id = cursor.lastrowid], then [insert_event(..., file_id)]. *)
Definition write_history (s : Store)
    (filename filepath creation_time modification_time deletion_time
       checksum user role : pyval) (event_type event_time : pyval) : Store :=
  let s1 := insert_file s filename filepath creation_time modification_time
              deletion_time checksum user role in
  let file_id := lastrowid s1 in
  insert_event s1 event_type event_time file_id.

Definition pystr_eqb (v : pyval) (s : string) : bool :=
  match v with
  | PyStr s' => String.eqb s' s
  | _ => false
  end.

(** [SELECT * FROM Files WHERE file_path = ?] and
    [SELECT * FROM Files WHERE filename = ?]: the matching rows in table
    order (there is no [ORDER BY]). *)
Definition select_Files_where_file_path (s : Store) (filepath : string)
  : list FilesRow :=
  filter (fun r => Is_true (pystr_eqb (file_path r) filepath)) (Files (working s)).

Definition select_Files_where_filename (s : Store) (name : string)
  : list FilesRow :=
  filter (fun r => Is_true (pystr_eqb (filename r) name)) (Files (working s)).

(** [cursor.fetchone()]: the first row of the result, or [None]. *)
Definition fetchone (rows : list FilesRow) : option FilesRow := head rows.

(** ** Baseline scanner *)

Definition NULL : pyval := PyStr "NULL".

(** The dictionary appended to [file_details]. *)
Definition file_detail (file filepath creation_time modified_time : string)
    (checksum : pyval) : pyval :=
  PyDict [("filename"%string, PyStr file);
          ("file_path"%string, PyStr filepath);
          ("creation_time"%string, PyStr creation_time);
          ("last_modified_time"%string, PyStr modified_time);
          ("checksum"%string, checksum)].

(** How a block of statements ends: normally, or by an exception that
    leaves the state as it was when raised. *)
Inductive result (S : Type) :=
| Returns (s : S)
| Raises (e : string) (s : S).
Arguments Returns {S} s.
Arguments Raises {S} e s.

Definition state_of {S : Type} (r : result S) : S :=
  match r with
  | Returns s => s
  | Raises _ s => s
  end.

(** The body of the innermost loop of [scan_directory] for the file
    [file] of directory [root].  [os.path.getctime] raises when the file
    has vanished since it was listed. *)
Definition scan_file (os : OS) (acc : Store * list pyval) (root file : string)
  : result (Store * list pyval) :=
  let '(s, file_details) := acc in
  let role := current_role os in
  let filepath := path_join os root file in
  match fs os filepath with
  | None => Raises "FileNotFoundError" acc
  | Some st =>
      let creation_time := st_ctime st in
      let modified_time := st_mtime st in
      let checksum := calculate_crc32_checksum os filepath in
      if truthy checksum then
        let s' := write_history s (PyStr file) (PyStr filepath)
                    (PyStr creation_time) (PyStr modified_time) NULL checksum
                    (PyStr (getuser os)) (PyStr role)
                    (PyStr "Scanned in directory") (PyStr creation_time) in
        Returns (s', file_details ++
                       [file_detail file filepath creation_time modified_time
                          checksum])
      else Returns acc
  end.

(** The files the three nested [for] loops visit, in order. *)
Definition walked (os : OS) (directories : list string)
  : list (string * string) :=
  flat_map (fun directory =>
    flat_map (fun '(root, files) => map (fun file => (root, file)) files)
             (walk os directory))
    directories.

(** The loops, left at the first exception. *)
Fixpoint scan_loop (os : OS) (acc : Store * list pyval)
    (entries : list (string * string)) : result (Store * list pyval) :=
  match entries with
  | [] => Returns acc
  | (root, file) :: rest =>
      match scan_file os acc root file with
      | Returns acc' => scan_loop os acc' rest
      | Raises e acc' => Raises e acc'
      end
  end.

(** [scan_directory(directories)]: the [except Exception] clause only
    prints, so what has been collected so far is returned either way.
    The result is the new store and the returned object. *)
Definition scan_directory (os : OS) (s : Store) (directories : list string)
  : Store * pyval :=
  let '(s', file_details) := state_of (scan_loop os (s, []) (walked os directories)) in
  (s', PyList file_details).

(** ** Change watcher *)

(** A watchdog event. *)
Record FsEvent := {
  is_directory : bool;
  src_path : string;
  dest_path : string
}.

(** The watcher process: the store and the class attribute
    [processed_files]. *)
Record Monitor := {
  db : Store;
  processed_files : gset string
}.

Definition with_db (m : Monitor) (s : Store) : Monitor :=
  {| db := s; processed_files := processed_files m |}.

Definition on_created (os : OS) (event : FsEvent) (m : Monitor)
  : result Monitor :=
  if is_directory event then Returns m
  else
    let filepath := src_path event in
    if bool_decide (filepath ∈ processed_files m) then Returns m
    else
      let m1 := {| db := db m;
                   processed_files := processed_files m ∪ {[filepath]} |} in
      let role := current_role os in
      let filename := basename os filepath in
      match fs os filepath with
      | None => Raises "FileNotFoundError" m1
      | Some st =>
          let creation_time := st_ctime st in
          let checksum := calculate_crc32_checksum os filepath in
          if truthy checksum then
            Returns (with_db m1
              (write_history (db m1) (PyStr filename) (PyStr filepath)
                 (PyStr creation_time) NULL NULL checksum
                 (PyStr (getuser os)) (PyStr role)
                 (PyStr "Creation") (PyStr creation_time)))
          else Returns m1
      end.

(** [os.path.getmtime] after a successful read of the same path; it
    raises when the path is absent. *)
Definition getmtime (os : OS) (path : string) : option string :=
  st_mtime <$> fs os path.

Definition on_modified (os : OS) (event : FsEvent) (m : Monitor)
  : result Monitor :=
  if is_directory event then Returns m
  else
    let filepath := src_path event in
    let checksum := calculate_crc32_checksum os filepath in
    if truthy checksum then
      let filename := basename os filepath in
      match getmtime os filepath with
      | None => Raises "FileNotFoundError" m
      | Some modified_time =>
          let role := current_role os in
          match fetchone (select_Files_where_file_path (db m) filepath) with
          | Some result =>
              Returns (with_db m
                (write_history (db m) (PyStr filename) (PyStr filepath)
                   (col result 3) (PyStr modified_time) NULL checksum
                   (PyStr (getuser os)) (PyStr role)
                   (PyStr "Modified") (PyStr modified_time)))
          | None => Returns m
          end
      end
    else Returns m.

Definition on_moved (os : OS) (event : FsEvent) (m : Monitor)
  : result Monitor :=
  if is_directory event then Returns m
  else
    let new_path := dest_path event in
    let checksum := calculate_crc32_checksum os new_path in
    if truthy checksum then
      match getmtime os new_path with
      | None => Raises "FileNotFoundError" m
      | Some modified_time =>
          let old_name := basename os (src_path event) in
          let new_name := basename os new_path in
          match fetchone (select_Files_where_filename (db m) old_name) with
          | Some result =>
              Returns (with_db m
                (write_history (db m) (PyStr new_name) (PyStr new_path)
                   (col result 3) (PyStr modified_time) NULL
                   (col result 6) (col result 7) (col result 8)
                   (PyStr (String.append "Renamed from "
                             (String.append old_name
                                (String.append " to " new_name))))
                   (PyStr modified_time)))
          | None => Returns m
          end
      end
    else Returns m.

Definition on_deleted (os : OS) (event : FsEvent) (m : Monitor)
  : result Monitor :=
  if is_directory event then Returns m
  else
    let filepath := src_path event in
    let filename := basename os filepath in
    let deletion_time := now os in
    match fetchone (select_Files_where_file_path (db m) filepath) with
    | Some result =>
        Returns (with_db m
          (write_history (db m) (PyStr filename) (PyStr filepath)
             (col result 3) (col result 4) (PyStr deletion_time)
             (col result 6) (PyStr (getuser os)) (col result 8)
             (PyStr "Deletion") (PyStr deletion_time)))
    | None => Returns m
    end.

(** ** Start-up *)

(** What [monitor_directories] does, in program order, before it enters
    its [while True: pass] loop. *)
Inductive action :=
| ScanCompleted (returned : pyval)
| ObserverSchedule (path : string) (recursive : bool)
| ObserverStart
| Print (line : string).

Definition monitor_directories_startup (os : OS) (s : Store)
    (directories : list string) : Monitor * list action :=
  let '(s', file_details) := scan_directory os s directories in
  ({| db := s'; processed_files := ∅ |},
   [ScanCompleted file_details]
     ++ map (fun directory => ObserverSchedule directory true) directories
     ++ [ObserverStart;
         Print "File monitoring active. Press Ctrl+C to terminate."]).

(** * Vocabulary of the properties *)

Definition clean (s : Store) : Prop := committed s = working s.

(** The storage layer refuses none of the statements to come. *)
Definition storage_sound (s : Store) : Prop :=
  Forall (fun b => b = false) (io_faults s).

(** The rows a successful [write_history] appends. *)
Definition new_Files_row (s : Store)
    (filename filepath creation_time modification_time deletion_time
       checksum user role : pyval) : FilesRow :=
  {| file_id := next_rowid (seq_Files (working s)) (map file_id (Files (working s)));
     filename := filename; file_path := filepath;
     creation_time := creation_time; modification_time := modification_time;
     deletion_time := deletion_time; hash_value := checksum;
     user := user; role := role |}.

Definition new_Events_row (s : Store) (event_type event_time file_id : pyval)
  : EventsRow :=
  {| event_id := next_rowid (seq_Events (working s)) (map event_id (Events (working s)));
     event_type := event_type; event_time := event_time;
     ev_file_id := file_id |}.

(** The representation invariant of [Files]: rows in strictly ascending
    rowid order, on disk and in the connection's view. *)
Definition rowid_ordered (t : Tables) : Prop :=
  StronglySorted Z.lt (map file_id (Files t)).

Definition store_ordered (s : Store) : Prop :=
  rowid_ordered (committed s) /\ rowid_ordered (working s).

Definition store_invariant (s : Store) : Prop :=
  clean s /\ store_ordered s.

(** Every stored row is named after its path by the basename function
    [bn]. *)
Definition named_by (bn : string -> string) (r : FilesRow) : Prop :=
  exists p, file_path r = PyStr p /\ filename r = PyStr (bn p).

Definition names_consistent (bn : string -> string) (s : Store) : Prop :=
  Forall (named_by bn) (Files (committed s))
  /\ Forall (named_by bn) (Files (working s)).

(** [r] is the most recently inserted of the rows [matching]. *)
Definition most_recent_of (matching : list FilesRow) (r : FilesRow) : Prop :=
  r ∈ matching /\ forall r', r' ∈ matching -> file_id r' <= file_id r.

(** [r] is the earliest inserted of the rows [matching]. *)
Definition earliest_of (matching : list FilesRow) (r : FilesRow) : Prop :=
  r ∈ matching /\ forall r', r' ∈ matching -> file_id r <= file_id r'.

(** Does the trace register a watch or start the observer before the
    scan has run to completion? *)
Fixpoint armed_before_scan_end (trace : list action) : bool :=
  match trace with
  | [] => false
  | ScanCompleted _ :: _ => false
  | ObserverSchedule _ _ :: _ => true
  | ObserverStart :: _ => true
  | Print _ :: rest => armed_before_scan_end rest
  end.

(** What the scan writes for one file: the row has the text ["NULL"] as
    deletion time and the creation time of the file on disk; the event
    is the scan event, stamped with that creation time and pointing at
    the row. *)
Definition scanned_pair (os : OS) (r : FilesRow) (e : EventsRow) : Prop :=
  deletion_time r = PyStr "NULL"
  /\ event_type e = PyStr "Scanned in directory"
  /\ event_time e = creation_time r
  /\ ev_file_id e = PyInt (file_id r)
  /\ exists path st,
       file_path r = PyStr path /\ fs os path = Some st
       /\ creation_time r = PyStr (st_ctime st).

Definition is_file_detail (d : pyval) : Prop :=
  exists file filepath ct mt ck, d = file_detail file filepath ct mt ck.

(** A [Files] row of the scan of [entries]: the text ["NULL"] as deletion
    time, and the name, the path and the creation time on disk of one of
    the files. *)
Definition scanned_row (os : OS) (entries : list (string * string))
    (r : FilesRow) : Prop :=
  deletion_time r = PyStr "NULL"
  /\ exists root file st,
       (root, file) ∈ entries
       /\ fs os (path_join os root file) = Some st
       /\ filename r = PyStr file
       /\ file_path r = PyStr (path_join os root file)
       /\ creation_time r = PyStr (st_ctime st).

(** An event of the scan of [entries]: a scan event stamped with the
    creation time of one of the files. *)
Definition scanned_event (os : OS) (entries : list (string * string))
    (e : EventsRow) : Prop :=
  event_type e = PyStr "Scanned in directory"
  /\ exists root file st,
       (root, file) ∈ entries
       /\ fs os (path_join os root file) = Some st
       /\ event_time e = PyStr (st_ctime st).

(** The dictionaries the scan of [entries] collects: one for every file
    with a fingerprint, up to the first file that has vanished. *)
Fixpoint scanned_details (os : OS) (entries : list (string * string))
  : list pyval :=
  match entries with
  | [] => []
  | (root, file) :: rest =>
      let filepath := path_join os root file in
      match fs os filepath with
      | None => []
      | Some st =>
          let checksum := calculate_crc32_checksum os filepath in
          if truthy checksum
          then file_detail file filepath (st_ctime st) (st_mtime st) checksum
                 :: scanned_details os rest
          else scanned_details os rest
      end
  end.

(** The state [a'] of the scan loop over files of [entries] extends the
    state [a]: rows and events of the scan have been committed, at most
    one row per file detail, and nothing is pending; on a storage layer
    that refuses nothing they come in pairs, one per file detail. *)
Definition scan_commits (os : OS) (entries : list (string * string))
    (a a' : Store * list pyval) : Prop :=
  exists details' rows evs,
    snd a' = snd a ++ details'
    /\ Files (committed (fst a')) = Files (committed (fst a)) ++ rows
    /\ Events (committed (fst a')) = Events (committed (fst a)) ++ evs
    /\ Forall (scanned_row os entries) rows
    /\ Forall (scanned_event os entries) evs
    /\ Forall is_file_detail details'
    /\ (length rows <= length details')%nat
    /\ clean (fst a')
    /\ (storage_sound (fst a) ->
        storage_sound (fst a')
        /\ Forall2 (scanned_pair os) rows evs
        /\ length rows = length details').

(** ** A concrete world for examples

    POSIX path functions, a directory [/w] and the empty database
    [database.py] creates. *)

Module Demo.

Fixpoint has_slash (p : string) : bool :=
  match p with
  | EmptyString => false
  | String c r => Ascii.eqb c "/" || has_slash r
  end.

Fixpoint posix_basename (p : string) : string :=
  match p with
  | EmptyString => EmptyString
  | String c r =>
      if has_slash r then posix_basename r
      else if Ascii.eqb c "/" then r else p
  end.

Fixpoint ends_with_slash (p : string) : bool :=
  match p with
  | EmptyString => false
  | String c EmptyString => Ascii.eqb c "/"
  | String _ r => ends_with_slash r
  end.

Definition posix_join (a b : string) : string :=
  match b with
  | String "/" _ => b
  | _ =>
      if String.eqb a EmptyString || ends_with_slash a then String.append a b
      else String.append a (String.append "/" b)
  end.

Fixpoint lookup_file (files : list (string * FileStat)) (p : string)
  : option FileStat :=
  match files with
  | [] => None
  | (q, st) :: rest => if String.eqb q p then Some st else lookup_file rest p
  end.

(** The world in which [/w] holds the files [files] (given by name),
    the process runs as [who] and the clock shows [clock]. *)
Definition world (files : list (string * FileStat)) (who clock : string) : OS :=
  {| fs := lookup_file (map (fun '(n, st) => (posix_join "/w" n, st)) files);
     walk := fun d => if String.eqb d "/w" then [("/w"%string, map fst files)] else [];
     path_join := posix_join;
     basename := posix_basename;
     getuser := who;
     IsUserAnAdmin := None;
     now := clock |}.

Definition file (ctime mtime : string) (content : list byte) : FileStat :=
  {| st_ctime := ctime; st_mtime := mtime; st_data := Some content |}.

Definition no_tables : Tables :=
  {| Files := []; Events := []; seq_Files := 0; seq_Events := 0 |}.

Definition fresh_store : Store :=
  {| committed := no_tables; working := no_tables; lastrowid := PyNone;
     io_faults := [] |}.

Definition fresh_monitor : Monitor :=
  {| db := fresh_store; processed_files := ∅ |}.

Definition file_event (p : string) : FsEvent :=
  {| is_directory := false; src_path := p; dest_path := EmptyString |}.

Definition move_event (p q : string) : FsEvent :=
  {| is_directory := false; src_path := p; dest_path := q |}.

End Demo.

(** ** A concrete history

    [/w/x.txt] is scanned with content "abc", then modified to "abcd",
    then renamed to [/w/y.txt]. *)

Module Scenario.
Import Demo.

Definition t0 : string := "2024-10-01 12:00:00".
Definition t1 : string := "2024-10-03 14:00:00".
Definition t2 : string := "2024-10-05 10:00:00".

Definition os_scan : OS := world [("x.txt"%string, file t0 t0 [x61; x62; x63])] "jean" t0.
Definition os_edit : OS := world [("x.txt"%string, file t0 t1 [x61; x62; x63; x64])] "jean" t1.
Definition os_move : OS := world [("y.txt"%string, file t0 t1 [x61; x62; x63; x64])] "jean" t2.
(** Another user runs the monitor when the file disappears. *)
Definition os_gone : OS := world [] "ana" t2.

Definition scanned : Monitor :=
  {| db := fst (scan_directory os_scan fresh_store ["/w"%string]);
     processed_files := ∅ |}.

Definition edited : Monitor :=
  state_of (on_modified os_edit (file_event "/w/x.txt") scanned).

Definition row1 : FilesRow :=
  {| file_id := 1; filename := PyStr "x.txt"; file_path := PyStr "/w/x.txt";
     creation_time := PyStr t0; modification_time := PyStr t0;
     deletion_time := PyStr "NULL"; hash_value := PyStr "352441c2";
     user := PyStr "jean"; role := PyStr "Standard User" |}.

Definition row2 : FilesRow :=
  {| file_id := 2; filename := PyStr "x.txt"; file_path := PyStr "/w/x.txt";
     creation_time := PyStr t0; modification_time := PyStr t1;
     deletion_time := PyStr "NULL"; hash_value := PyStr "ed82cd11";
     user := PyStr "jean"; role := PyStr "Standard User" |}.

Definition with_faults (s : Store) (faults : list bool) : Store :=
  {| committed := committed s; working := working s;
     lastrowid := lastrowid s; io_faults := faults |}.

End Scenario.

(** The store after the baseline scan, on a storage layer that refuses
    the next statement and accepts the one after it. *)
Definition refusing_store : Store :=
  Scenario.with_faults (db Scenario.scanned) [true; false].

(** The same store on a storage layer that lets the next INSERT run and
    refuses the commit that follows it. *)
Definition commit_refusing_store : Store :=
  Scenario.with_faults (db Scenario.scanned) [false; true].

(** A directory with two files created at different times, and the empty
    database on a storage layer that stores the first [Files] row,
    refuses the INSERT of its event and the INSERT of the next [Files]
    row, and accepts what follows. *)
Definition os_two_files : OS :=
  Demo.world [("a.txt"%string, Demo.file Scenario.t0 Scenario.t0 [x61]);
              ("b.txt"%string, Demo.file Scenario.t1 Scenario.t1 [x62])]
    "jean" Scenario.t2.

Definition faltering_store : Store :=
  Scenario.with_faults Demo.fresh_store [false; false; true; true].

(** How one insert of the writer ends: the row is stored, or [execute]
    raised, or [execute] ran and [commit] raised. *)
Inductive insert_outcome :=
| Stored
| ExecuteRefused
| CommitRefused.

(** The outcome the storage layer has in store for the next insert, and
    the faults left for what follows it. *)
Definition next_outcome (faults : list bool) : insert_outcome * list bool :=
  match faults with
  | true :: rest => (ExecuteRefused, rest)
  | _ :: true :: rest => (CommitRefused, rest)
  | _ => (Stored, tail (tail faults))
  end.

(** ** Signals of one watcher session *)

(** The four kinds of event the observer hands to [FileEventHandler]. *)
Inductive Signal :=
| Created (event : FsEvent)
| Modified (event : FsEvent)
| Moved (event : FsEvent)
| Deleted (event : FsEvent).

Definition dispatch (os : OS) (signal : Signal) (m : Monitor) : result Monitor :=
  match signal with
  | Created event => on_created os event m
  | Modified event => on_modified os event m
  | Moved event => on_moved os event m
  | Deleted event => on_deleted os event m
  end.

(** The watcher state after the handlers have run for [signals], each
    in the world it finds; a handler that raised leaves the state as it
    was at that point. *)
Definition deliver (signals : list (OS * Signal)) (m : Monitor) : Monitor :=
  fold_left (fun m '(os, signal) => state_of (dispatch os signal m)) signals m.

(** One run of [monitor_directories]: the start-up in the world [os0],
    then the signals. *)
Definition session (os0 : OS) (s : Store) (directories : list string)
    (signals : list (OS * Signal)) : Monitor :=
  deliver signals (fst (monitor_directories_startup os0 s directories)).

(** Row [i] of [Files] and row [i] of [Events] belong together: the
    event carries the key of the file row. *)
Definition paired (t : Tables) : Prop :=
  Forall2 (fun r e => ev_file_id e = PyInt (file_id r)) (Files t) (Events t).

(** A character of [0-9a-f]. *)
Definition is_lower_hex (c : ascii) : bool :=
  let n := Z.of_nat (nat_of_ascii c) in
  ((48 <=? n) && (n <=? 57)) || ((97 <=? n) && (n <=? 102)).

(** ** The view [FilesView] of [database.py] *)

(** A row of [FilesView], columns in the order of its [SELECT]. *)
Record FilesViewRow := {
  v_file_id : Z;
  v_filename : pyval;
  v_file_path : pyval;
  v_creation_time : pyval;
  v_modification_time : pyval;
  v_deletion_time : pyval;
  v_hash_value : pyval;
  v_event_type : pyval;
  v_event_time : pyval;
  v_user : pyval;
  v_role : pyval
}.

Definition view_row (f : FilesRow) (event_type event_time : pyval)
  : FilesViewRow :=
  {| v_file_id := file_id f; v_filename := filename f;
     v_file_path := file_path f; v_creation_time := creation_time f;
     v_modification_time := modification_time f;
     v_deletion_time := deletion_time f; v_hash_value := hash_value f;
     v_event_type := event_type; v_event_time := event_time;
     v_user := user f; v_role := role f |}.

(** [ON f.file_id = e.file_id]: an integer equal to the key; a null
    [file_id] matches nothing. *)
Definition joins (f : FilesRow) (e : EventsRow) : bool :=
  match ev_file_id e with
  | PyInt id => id =? file_id f
  | _ => false
  end.

(** The rows [Files f LEFT JOIN Events e] yields for the row [f]: one
    per matching event, or one with null event columns when there is
    none. *)
Definition view_rows_of (t : Tables) (f : FilesRow) : list FilesViewRow :=
  match filter (fun e => Is_true (joins f e)) (Events t) with
  | [] => [view_row f PyNone PyNone]
  | es => map (fun e => view_row f (event_type e) (event_time e)) es
  end.

Definition FilesView (t : Tables) : list FilesViewRow :=
  flat_map (view_rows_of t) (Files t).

(** ** Reading a fingerprint back *)

Fixpoint string_forallb (f : ascii -> bool) (s : string) : bool :=
  match s with
  | EmptyString => true
  | String c r => f c && string_forallb f r
  end.

(** Value of a hexadecimal digit, and [int(s, 16)] continued from the
    value [v] of the digits already read. *)
Definition hex_digit_value (c : ascii) : Z :=
  let n := Z.of_nat (nat_of_ascii c) in
  if n <=? 57 then n - 48 else n - 87.

Fixpoint hex_value_from (v : Z) (s : string) : Z :=
  match s with
  | EmptyString => v
  | String c r => hex_value_from (16 * v + hex_digit_value c) r
  end.

Definition hex_value (s : string) : Z := hex_value_from 0 s.

(** ** What a handler may do to the store *)

(** One step of the scanner or of a handler either leaves the store
    alone or runs the writer once. *)
Definition wrote (s s' : Store) : Prop :=
  s' = s
  \/ exists fn fp et ct mt dt ck u r tm,
       s' = write_history s (PyStr fn) (PyStr fp) ct mt dt ck u r (PyStr et) tm.

(** The committed history of [s'] continues that of [s]. *)
Definition append_only (s s' : Store) : Prop :=
  Files (committed s) `prefix_of` Files (committed s')
  /\ Events (committed s) `prefix_of` Events (committed s').

(** The [Files] row [r] is the one the dictionary [d] of the returned
    list describes. *)
Definition detail_of_row (r : FilesRow) (d : pyval) : Prop :=
  exists file filepath ct mt ck,
    d = file_detail file filepath ct mt ck
    /\ filename r = PyStr file /\ file_path r = PyStr filepath
    /\ creation_time r = PyStr ct /\ modification_time r = PyStr mt
    /\ hash_value r = ck.

(** ** Worlds with a vanished and with an unreadable file *)

Module Races.
Import Demo.

(** [/w] is listed with [gone.txt] before [x.txt], but [gone.txt] no
    longer exists when the scan reaches it. *)
Definition os_vanished : OS :=
  {| fs := fs Scenario.os_scan;
     walk := fun d => if String.eqb d "/w"
                      then [("/w"%string, ["gone.txt"%string; "x.txt"%string])]
                      else [];
     path_join := posix_join;
     basename := posix_basename;
     getuser := "jean";
     IsUserAnAdmin := None;
     now := Scenario.t0 |}.

Definition locked : FileStat :=
  {| st_ctime := Scenario.t0; st_mtime := Scenario.t0; st_data := None |}.

(** [/w] holds [locked.txt], which cannot be opened, and [x.txt]. *)
Definition os_locked : OS :=
  world [("locked.txt"%string, locked);
         ("x.txt"%string, file Scenario.t0 Scenario.t0 [x61; x62; x63])]
    "jean" Scenario.t0.

(** The same directory once [locked.txt] can be read. *)
Definition os_unlocked : OS :=
  world [("locked.txt"%string, file Scenario.t0 Scenario.t0 [x61]);
         ("x.txt"%string, file Scenario.t0 Scenario.t0 [x61; x62; x63])]
    "jean" Scenario.t1.

End Races.

(** The two runs of the loop end the same way with the same list. *)
Definition same_details (r1 r2 : result (Store * list pyval)) : Prop :=
  match r1, r2 with
  | Returns a1, Returns a2 => snd a1 = snd a2
  | Raises e1 a1, Raises e2 a2 => e1 = e2 /\ snd a1 = snd a2
  | _, _ => False
  end.

(** ** Kinds of record *)

(** How the columns of a record and of its event hang together, by kind
    of event: which time column the event repeats, and which columns
    hold the text ["NULL"]. *)
Definition stamped_args (fn ct mt dt et tm : pyval) : Prop :=
  (et = PyStr "Scanned in directory" /\ tm = ct /\ dt = NULL)
  \/ (et = PyStr "Creation" /\ tm = ct /\ mt = NULL /\ dt = NULL)
  \/ (et = PyStr "Modified" /\ tm = mt /\ dt = NULL)
  \/ ((exists old_name new_name,
         et = PyStr (String.append "Renamed from "
                       (String.append old_name (String.append " to " new_name)))
         /\ fn = PyStr new_name)
      /\ tm = mt /\ dt = NULL)
  \/ (et = PyStr "Deletion" /\ tm = dt).

Definition stamped (r : FilesRow) (e : EventsRow) : Prop :=
  ev_file_id e = PyInt (file_id r)
  /\ stamped_args (filename r) (creation_time r) (modification_time r)
       (deletion_time r) (event_type e) (event_time e).

(** A step that, if it writes, writes a record and event of one of the
    five kinds. *)
Definition wrote_stamped (s s' : Store) : Prop :=
  s' = s
  \/ exists fn fp et ct mt dt ck u r tm,
       s' = write_history s (PyStr fn) (PyStr fp) ct mt dt ck u r (PyStr et) tm
       /\ stamped_args (PyStr fn) ct mt dt (PyStr et) tm.

(** * [process_monitor.py]: the executable registry *)

Module ProcessMonitor.

(** A row of [Executables] ([database.py]). *)
Record ExecutablesRow := {
  executable_id : Z;
  executable_name : string;
  executable_path : string
}.

Record ExeTable := {
  Executables : list ExecutablesRow;
  seq_Executables : Z
}.

(** The connection and cursor of [main], as far as [Executables] is
    concerned; the fields are those of [Store]. *)
Record ExeStore := {
  exe_committed : ExeTable;
  exe_working : ExeTable;
  exe_lastrowid : pyval;
  exe_faults : list bool
}.

(** [SELECT executable_id FROM Executables WHERE executable_name = ? AND
    executable_path = ?], in table order. *)
Definition select_executable_id (s : ExeStore) (name path : string) : list Z :=
  map executable_id
    (filter (fun r => Is_true (String.eqb (executable_name r) name
                               && String.eqb (executable_path r) path))
            (Executables (exe_working s))).

(** How a call ends: with an identifier, or with the exception of the
    refused INSERT or of the refused commit, which the function does not
    catch.  After a refused commit the row stays in the open transaction:
    neither the function nor its caller rolls back. *)
Inductive exe_result :=
| ExeId (id : Z) (s : ExeStore)
| ExeError (s : ExeStore).

Definition exe_store_of (r : exe_result) : ExeStore :=
  match r with
  | ExeId _ s => s
  | ExeError s => s
  end.

Definition get_executable_id (s : ExeStore) (name path : string) : exe_result :=
  match head (select_executable_id s name path) with
  | Some id => ExeId id s                                  (* result[0] *)
  | None =>
      match exe_faults s with
      | true :: rest =>
          ExeError {| exe_committed := exe_committed s;
                      exe_working := exe_working s;
                      exe_lastrowid := exe_lastrowid s;
                      exe_faults := rest |}
      | faults =>
          let t := exe_working s in
          let id := next_rowid (seq_Executables t)
                      (map executable_id (Executables t)) in
          let t' := {| Executables :=
                         Executables t
                           ++ [{| executable_id := id;
                                  executable_name := name;
                                  executable_path := path |}];
                       seq_Executables := id |} in
          match tail faults with
          | true :: rest =>                                (* conn.commit() raises *)
              ExeError {| exe_committed := exe_committed s;
                          exe_working := t';
                          exe_lastrowid := PyInt id;
                          exe_faults := rest |}
          | rest =>
              (* conn.commit(); return cursor.lastrowid *)
              ExeId id {| exe_committed := t'; exe_working := t';
                          exe_lastrowid := PyInt id;
                          exe_faults := tail rest |}
          end
      end
  end.

(** The store after a series of calls, whatever each returned. *)
Definition register_all (calls : list (string * string)) (s : ExeStore)
  : ExeStore :=
  fold_left (fun s '(name, path) => exe_store_of (get_executable_id s name path))
    calls s.

(** No two rows of the connection's view are the same executable, and
    the rows are in rowid order. *)
Definition exe_unique (s : ExeStore) : Prop :=
  NoDup (map (fun r => (executable_name r, executable_path r))
           (Executables (exe_working s)))
  /\ StronglySorted Z.lt (map executable_id (Executables (exe_working s))).

Definition exe_empty : ExeStore :=
  {| exe_committed := {| Executables := []; seq_Executables := 0 |};
     exe_working := {| Executables := []; seq_Executables := 0 |};
     exe_lastrowid := PyNone;
     exe_faults := [] |}.

End ProcessMonitor.

(** * [network_monitor.py]: logging packets of blacklisted sources *)

Module NetworkMonitor.

(** What [log_packet] reads of a scapy packet: the addresses of its IP
    layer, the ports of its TCP and UDP layers (each layer may be
    absent) and [len(packet)]. *)
Record Packet := {
  ip_layer : option (string * string);       (* packet[IP].src, packet[IP].dst *)
  tcp_layer : option (Z * Z);                (* packet[TCP].sport, .dport *)
  udp_layer : option (Z * Z);                (* packet[UDP].sport, .dport *)
  packet_len : Z
}.

(** A row of [NetworkTraffic] ([database.py]); no column but the key
    is declared [NOT NULL]. *)
Record NetworkTrafficRow := {
  traffic_id : Z;
  source_ip : pyval;
  destination_ip : pyval;
  source_port : pyval;
  destination_port : pyval;
  protocol : pyval;
  packet_size : pyval;
  timestamp : pyval
}.

Record NetTable := {
  NetworkTraffic : list NetworkTrafficRow;
  seq_NetworkTraffic : Z
}.

(** The module-level [conn] and [cursor]; the fields are those of
    [Store]. *)
Record NetStore := {
  net_committed : NetTable;
  net_working : NetTable;
  net_lastrowid : pyval;
  net_faults : list bool
}.

(** [insert_file] of [network_monitor.py]: insert and commit, or print
    and roll back, whether it is [execute] or [commit] that raised. *)
Definition insert_file (s : NetStore)
    (src_ip dst_ip src_port dst_port protocol packet_size timestamp : pyval)
  : NetStore :=
  match net_faults s with
  | true :: rest =>
      {| net_committed := net_committed s; net_working := net_committed s;
         net_lastrowid := net_lastrowid s; net_faults := rest |}
  | faults =>
      let t := net_working s in
      let id := next_rowid (seq_NetworkTraffic t)
                  (map traffic_id (NetworkTraffic t)) in
      let t' := {| NetworkTraffic :=
                     NetworkTraffic t
                       ++ [{| traffic_id := id; source_ip := src_ip;
                              destination_ip := dst_ip;
                              source_port := src_port;
                              destination_port := dst_port;
                              protocol := protocol;
                              packet_size := packet_size;
                              timestamp := timestamp |}];
                   seq_NetworkTraffic := id |} in
      match tail faults with
      | true :: rest =>
          {| net_committed := net_committed s; net_working := net_committed s;
             net_lastrowid := PyInt id; net_faults := rest |}
      | rest =>
          {| net_committed := t'; net_working := t';
             net_lastrowid := PyInt id; net_faults := tail rest |}
      end
  end.

(** [str.isspace] on an ASCII character, and [str.strip]. *)
Definition py_isspace (c : ascii) : bool :=
  let n := nat_of_ascii c in
  ((9 <=? n)%nat && (n <=? 13)%nat) || ((28 <=? n)%nat && (n <=? 32)%nat).

Fixpoint lstrip (s : list ascii) : list ascii :=
  match s with
  | c :: r => if py_isspace c then lstrip r else s
  | [] => []
  end.

Definition strip (s : string) : string :=
  string_of_list_ascii
    (rev (lstrip (rev (lstrip (list_ascii_of_string s))))).

Definition startswith_hash (line : string) : bool :=
  match line with
  | String "#" _ => true
  | _ => false
  end.

(** [load_blacklist()]: [file] is the content of [blacklist.txt] as the
    lines Python iterates over, or [None] when the file does not
    exist. *)
Definition load_blacklist (file : option (list string)) : gset string :=
  match file with
  | Some lines =>
      list_to_set
        (map strip
           (List.filter
              (fun line => negb (String.eqb (strip line) EmptyString)
                           && negb (startswith_hash line))
              lines))
  | None => ∅                                       (* FileNotFoundError *)
  end.

(** [log_packet(packet, blacklist)] at the time [clock]. *)
Definition log_packet (clock : string) (s : NetStore) (packet : Packet)
    (blacklist : gset string) : NetStore :=
  match ip_layer packet with
  | Some (src_ip, dst_ip) =>
      if bool_decide (src_ip ∈ blacklist) then
        let '(protocol, src_port, dst_port) :=
          match tcp_layer packet with
          | Some (sport, dport) => (PyStr "TCP", PyInt sport, PyInt dport)
          | None =>
              match udp_layer packet with
              | Some (sport, dport) => (PyStr "UDP", PyInt sport, PyInt dport)
              | None => (PyNone, PyNone, PyNone)
              end
          end in
        insert_file s (PyStr src_ip) (PyStr dst_ip) src_port dst_port
          protocol (PyInt (packet_len packet)) (PyStr clock)
      else s
  | None => s
  end.

(** [start_packet_sniffer()]: the blacklist is loaded once, then every
    sniffed packet goes through [log_packet]. *)
Definition start_packet_sniffer (file : option (list string))
    (packets : list (string * Packet)) (s : NetStore) : NetStore :=
  let blacklist := load_blacklist file in
  fold_left (fun s '(clock, packet) => log_packet clock s packet blacklist)
    packets s.

Definition net_clean (s : NetStore) : Prop := net_committed s = net_working s.

(** The packet has an IP layer whose source is on the list. *)
Definition from_blacklisted (blacklist : gset string) (packet : Packet) : Prop :=
  exists src dst, ip_layer packet = Some (src, dst) /\ src ∈ blacklist.

Definition net_empty : NetStore :=
  {| net_committed := {| NetworkTraffic := []; seq_NetworkTraffic := 0 |};
     net_working := {| NetworkTraffic := []; seq_NetworkTraffic := 0 |};
     net_lastrowid := PyNone;
     net_faults := [] |}.

End NetworkMonitor.

(** * Properties *)

(** ** The fingerprint *)

Module FingerprintFacts.
Import Fingerprint.

Lemma lxor_mask_twice (x m : Z) : Z.lxor (Z.lxor x m) m = x.
Proof. by rewrite Z.lxor_assoc, Z.lxor_nilpotent, Z.lxor_0_r. Qed.

Lemma crc32_nil (c : Z) : crc32 [] c = c.
Proof. unfold crc32; simpl. apply lxor_mask_twice. Qed.

(** Feeding the data in two pieces gives the checksum of the whole. *)
Lemma crc32_app (a b : list byte) (c : Z) :
  crc32 (a ++ b) c = crc32 b (crc32 a c).
Proof.
  unfold crc32. rewrite fold_left_app.
  by rewrite (lxor_mask_twice (fold_left crc_byte a _)).
Qed.

Lemma CHUNK_pos : (0 < CHUNK)%nat.
Proof. unfold CHUNK. lia. Qed.

(** The read loop returns the checksum of the whole unread rest as soon
    as its fuel exceeds the number of unread bytes: the chunking is not
    observable and the loop never runs out of fuel. *)
Lemma read_loop_crc32 (fuel : nat) :
  forall (rest : list byte) (c : Z),
    (length rest < fuel)%nat -> read_loop fuel rest c = crc32 rest c.
Proof.
  induction fuel as [|fuel IH]; intros rest c Hlen; [lia|].
  simpl read_loop.
  destruct (take CHUNK rest) as [|b chunk] eqn:Htake.
  - assert (rest = []) as ->.
    { destruct rest as [|x rest']; [done|].
      pose proof CHUNK_pos. destruct CHUNK; [lia|]. discriminate. }
    by rewrite crc32_nil.
  - rewrite IH.
    + rewrite <- crc32_app, <- Htake. by rewrite take_drop.
    + rewrite length_drop.
      assert (length (take CHUNK rest) <> 0)%nat by (rewrite Htake; simpl; lia).
      rewrite length_take in *. lia.
Qed.

Lemma checksum_of_bytes_crc32 (content : list byte) :
  checksum_of_bytes content = crc32 content 0.
Proof. unfold checksum_of_bytes. apply read_loop_crc32. lia. Qed.

End FingerprintFacts.

(** ** The store *)

Lemma storage_sound_next (s : Store) : storage_sound s -> next_fault s = false.
Proof.
  unfold storage_sound, next_fault. destruct (io_faults s); [done|].
  by inversion 1.
Qed.

Lemma storage_sound_tail (s : Store) :
  storage_sound s -> Forall (fun b => b = false) (tail (io_faults s)).
Proof.
  unfold storage_sound. destruct (io_faults s); simpl; [done|].
  by inversion 1.
Qed.

Lemma storage_sound_consume (s : Store) :
  storage_sound s -> storage_sound (consume_fault s).
Proof. apply storage_sound_tail. Qed.

Lemma insert_file_ok (s : Store) (fn fp ct mt dt ck u r : pyval) :
  next_fault s = false ->
  next_fault (consume_fault s) = false ->
  pyval_is_none fn = false -> pyval_is_none fp = false ->
  let row := new_Files_row s fn fp ct mt dt ck u r in
  let t := {| Files := Files (working s) ++ [row]; Events := Events (working s);
              seq_Files := file_id row; seq_Events := seq_Events (working s) |} in
  insert_file s fn fp ct mt dt ck u r =
    {| committed := t; working := t; lastrowid := PyInt (file_id row);
       io_faults := tail (tail (io_faults s)) |}.
Proof.
  intros Hf Hc Hfn Hfp. unfold insert_file, execute_insert_Files.
  rewrite Hf, Hfn, Hfp. simpl orb. cbv iota.
  unfold next_fault in *. simpl in *. by rewrite Hc.
Qed.

Lemma insert_file_refused (s : Store) (fn fp ct mt dt ck u r : pyval) :
  next_fault s = true ->
  insert_file s fn fp ct mt dt ck u r =
    {| committed := committed s; working := committed s;
       lastrowid := lastrowid s; io_faults := tail (io_faults s) |}.
Proof.
  intros Hf. unfold insert_file, execute_insert_Files. by rewrite Hf.
Qed.

(** The INSERT runs and the commit is refused: nothing is stored, the
    cursor keeps the key of the row that was rolled back. *)
Lemma insert_file_commit_refused (s : Store) (fn fp ct mt dt ck u r : pyval) :
  next_fault s = false ->
  next_fault (consume_fault s) = true ->
  pyval_is_none fn = false -> pyval_is_none fp = false ->
  insert_file s fn fp ct mt dt ck u r =
    {| committed := committed s; working := committed s;
       lastrowid := PyInt (file_id (new_Files_row s fn fp ct mt dt ck u r));
       io_faults := tail (tail (io_faults s)) |}.
Proof.
  intros Hf Hc Hfn Hfp. unfold insert_file, execute_insert_Files.
  rewrite Hf, Hfn, Hfp. simpl orb. cbv iota.
  unfold next_fault in *. simpl in *. by rewrite Hc.
Qed.

Lemma insert_event_ok (s : Store) (et tm fid : pyval) :
  next_fault s = false ->
  next_fault (consume_fault s) = false ->
  pyval_is_none et = false ->
  let row := new_Events_row s et tm fid in
  let t := {| Files := Files (working s); Events := Events (working s) ++ [row];
              seq_Files := seq_Files (working s); seq_Events := event_id row |} in
  insert_event s et tm fid =
    {| committed := t; working := t; lastrowid := PyInt (event_id row);
       io_faults := tail (tail (io_faults s)) |}.
Proof.
  intros Hf Hc Het. unfold insert_event, execute_insert_Events.
  rewrite Hf, Het. simpl orb. cbv iota.
  unfold next_fault in *. simpl in *. by rewrite Hc.
Qed.

Lemma insert_event_refused (s : Store) (et tm fid : pyval) :
  next_fault s = true ->
  insert_event s et tm fid =
    {| committed := committed s; working := committed s;
       lastrowid := lastrowid s; io_faults := tail (io_faults s) |}.
Proof.
  intros Hf. unfold insert_event, execute_insert_Events. by rewrite Hf.
Qed.

Lemma insert_event_commit_refused (s : Store) (et tm fid : pyval) :
  next_fault s = false ->
  next_fault (consume_fault s) = true ->
  pyval_is_none et = false ->
  insert_event s et tm fid =
    {| committed := committed s; working := committed s;
       lastrowid := PyInt (event_id (new_Events_row s et tm fid));
       io_faults := tail (tail (io_faults s)) |}.
Proof.
  intros Hf Hc Het. unfold insert_event, execute_insert_Events.
  rewrite Hf, Het. simpl orb. cbv iota.
  unfold next_fault in *. simpl in *. by rewrite Hc.
Qed.

Lemma insert_file_sound (s : Store) (fn fp ct mt dt ck u r : pyval) :
  storage_sound s -> storage_sound (insert_file s fn fp ct mt dt ck u r).
Proof.
  intros Hs. pose proof (storage_sound_consume _ Hs) as Hs1.
  pose proof (storage_sound_consume _ Hs1) as Hs2.
  unfold insert_file, execute_insert_Files.
  repeat (case_match; simpl in * ); simplify_eq; done.
Qed.

Lemma insert_event_sound (s : Store) (et tm fid : pyval) :
  storage_sound s -> storage_sound (insert_event s et tm fid).
Proof.
  intros Hs. pose proof (storage_sound_consume _ Hs) as Hs1.
  pose proof (storage_sound_consume _ Hs1) as Hs2.
  unfold insert_event, execute_insert_Events.
  repeat (case_match; simpl in * ); simplify_eq; done.
Qed.

Lemma write_history_sound (s : Store) (fn fp ct mt dt ck u r et tm : pyval) :
  storage_sound s ->
  storage_sound (write_history s fn fp ct mt dt ck u r et tm).
Proof.
  intros Hs. unfold write_history. by apply insert_event_sound, insert_file_sound.
Qed.

(** On a sound storage layer both rows are written and the event points
    at the new [Files] row. *)
Lemma write_history_ok (s : Store) (fn fp ct mt dt ck u r et tm : pyval) :
  storage_sound s ->
  pyval_is_none fn = false -> pyval_is_none fp = false ->
  pyval_is_none et = false ->
  let row := new_Files_row s fn fp ct mt dt ck u r in
  let ev := {| event_id := next_rowid (seq_Events (working s))
                             (map event_id (Events (working s)));
               event_type := et; event_time := tm;
               ev_file_id := PyInt (file_id row) |} in
  let t := {| Files := Files (working s) ++ [row];
              Events := Events (working s) ++ [ev];
              seq_Files := file_id row; seq_Events := event_id ev |} in
  write_history s fn fp ct mt dt ck u r et tm =
    {| committed := t; working := t; lastrowid := PyInt (event_id ev);
       io_faults := tail (tail (tail (tail (io_faults s)))) |}.
Proof.
  intros Hs Hfn Hfp Het. unfold write_history.
  pose proof (storage_sound_consume _ Hs) as Hs1.
  pose proof (insert_file_sound s fn fp ct mt dt ck u r Hs) as Hs2.
  rewrite insert_file_ok in * by auto using storage_sound_next.
  rewrite insert_event_ok; [done| | |done].
  - by apply storage_sound_next.
  - by apply storage_sound_next, storage_sound_consume.
Qed.

(** Whatever the storage layer does, one run of the writer on a
    connection with nothing pending commits at most its [Files] row and
    at most one event with the expected type and time, and leaves
    nothing pending. *)
Lemma write_history_commits (s : Store) (fn fp et : string)
    (ct mt dt ck u r tm : pyval) :
  clean s ->
  let s' := write_history s (PyStr fn) (PyStr fp) ct mt dt ck u r (PyStr et) tm in
  exists rows evs,
    Files (committed s') = Files (committed s) ++ rows
    /\ Events (committed s') = Events (committed s) ++ evs
    /\ (rows = [] \/ rows = [new_Files_row s (PyStr fn) (PyStr fp) ct mt dt ck u r])
    /\ (evs = [] \/ exists fid, evs = [new_Events_row s (PyStr et) tm fid])
    /\ clean s'.
Proof.
  intros Hclean. unfold clean in Hclean.
  unfold write_history, insert_event, execute_insert_Events, insert_file,
    execute_insert_Files, next_fault, consume_fault,
    new_Events_row, new_Files_row, commit, rollback, clean.
  destruct (io_faults s) as [|[] [|[] [|[] [|[] rest]]]]; simpl;
    rewrite ?Hclean;
    first [ exists [], []; rewrite !app_nil_r; by eauto 10
          | eexists [], [_]; rewrite !app_nil_r; by eauto 10
          | eexists [_], []; rewrite !app_nil_r; by eauto 10
          | eexists [_], [_]; by eauto 10 ].
Qed.

(** ** C10: empty files *)



(** ** Table order *)

Lemma max_rowid_ge (ids : list Z) (id : Z) : id ∈ ids -> id <= max_rowid ids.
Proof.
  induction 1 as [id ids|id id' ids _ IH]; simpl; lia.
Qed.

Lemma next_rowid_fresh (seq : Z) (ids : list Z) :
  Forall (fun id => id < next_rowid seq ids) ids.
Proof.
  apply Forall_forall. intros id Hin. apply max_rowid_ge in Hin.
  unfold next_rowid. lia.
Qed.

Lemma StronglySorted_snoc (l : list Z) (x : Z) :
  StronglySorted Z.lt l -> Forall (fun y => y < x) l ->
  StronglySorted Z.lt (l ++ [x]).
Proof.
  induction 1 as [|y l Hl IH Hy]; intros Hx; simpl.
  - repeat constructor.
  - inversion Hx; subst. constructor; [auto|].
    apply Forall_app; split; [done|]. by constructor.
Qed.

Lemma write_history_ordered (s : Store) (fn fp ct mt dt ck u r et tm : pyval) :
  store_ordered s ->
  store_ordered (write_history s fn fp ct mt dt ck u r et tm).
Proof.
  intros [Hc Hw].
  assert (rowid_ordered
            {| Files := Files (working s) ++ [new_Files_row s fn fp ct mt dt ck u r];
               Events := Events (working s);
               seq_Files := file_id (new_Files_row s fn fp ct mt dt ck u r);
               seq_Events := seq_Events (working s) |}) as Hnew.
  { unfold rowid_ordered; simpl. rewrite map_app. simpl.
    apply StronglySorted_snoc; [done|]. apply next_rowid_fresh. }
  unfold write_history, insert_event, execute_insert_Events,
    insert_file, execute_insert_Files, store_ordered.
  repeat (case_match; simpl in * ); simplify_eq; simpl; done.
Qed.

(** The first row of a filtered, rowid-ordered table is the matching row
    with the least rowid. *)
Lemma head_filter_least (P : FilesRow -> Prop) `{!forall r, Decision (P r)}
    (rows : list FilesRow) (r : FilesRow) :
  StronglySorted Z.lt (map file_id rows) ->
  head (filter P rows) = Some r ->
  r ∈ rows /\ P r /\ forall r', r' ∈ rows -> P r' -> file_id r <= file_id r'.
Proof.
  induction rows as [|x rows IH]; simpl; intros Hs Hh; [done|].
  inversion Hs as [|? ? Hs' Hx]; subst.
  rewrite filter_cons in Hh. destruct (decide (P x)) as [HP|HP].
  - simpl in Hh. simplify_eq. split; [left|]. split; [done|].
    intros r' Hin _. apply elem_of_cons in Hin as [->|Hin]; [lia|].
    rewrite Forall_forall in Hx.
    assert (file_id r < file_id r'); [|lia].
    apply Hx. apply list_elem_of_In, in_map. by apply list_elem_of_In.
  - destruct (IH Hs' Hh) as (Hin & HPr & Hleast).
    split; [by right|]. split; [done|].
    intros r' Hin' HP'. apply elem_of_cons in Hin' as [->|Hin']; [done|].
    by apply Hleast.
Qed.

Lemma pystr_eqb_eq (v : pyval) (s : string) :
  Is_true (pystr_eqb v s) <-> v = PyStr s.
Proof.
  destruct v; simpl; try (split; [done|discriminate]).
  rewrite Is_true_true, String.eqb_eq. split; congruence.
Qed.

(** ** C1: which record a lookup selects *)

(** After a scan and one modification of [/w/x.txt] the table holds
    the rows 1 and 2 for that path and that name; both lookups return
    row 1, which is not the most recent one. *)
Lemma lookup_most_recent_counterexample :
  Files (working (db Scenario.edited)) = [Scenario.row1; Scenario.row2]
  /\ fetchone (select_Files_where_file_path (db Scenario.edited) "/w/x.txt")
     = Some Scenario.row1
  /\ fetchone (select_Files_where_filename (db Scenario.edited) "x.txt")
     = Some Scenario.row1
  /\ ~ most_recent_of
         (select_Files_where_file_path (db Scenario.edited) "/w/x.txt")
         Scenario.row1
  /\ ~ most_recent_of
         (select_Files_where_filename (db Scenario.edited) "x.txt")
         Scenario.row1.
Proof.
  split; [by vm_compute|]. split; [by vm_compute|]. split; [by vm_compute|].
  assert (Scenario.row2 ∈ [Scenario.row1; Scenario.row2]) as Hin
    by (right; left).
  split; intros [_ Hmax]; specialize (Hmax Scenario.row2);
    vm_compute in Hmax; by specialize (Hmax Hin eq_refl).
Qed.

(** C1 (amended).  The queries of the handlers have no [ORDER BY]: on a
    table in rowid order the record [fetchone] hands to the modify and
    delete handlers (lookup by full path) and to the rename handler
    (lookup by basename) is the matching record with the lowest
    [file_id], the earliest inserted one. *)
Theorem lookup_selects_earliest (s : Store) (key : string) (r : FilesRow) :
  rowid_ordered (working s) ->
  (fetchone (select_Files_where_file_path s key) = Some r ->
     file_path r = PyStr key
     /\ earliest_of (select_Files_where_file_path s key) r)
  /\ (fetchone (select_Files_where_filename s key) = Some r ->
        filename r = PyStr key
        /\ earliest_of (select_Files_where_filename s key) r).
Proof.
  intros Hord.
  split; intros Hfetch;
    apply head_filter_least in Hfetch as (Hin & HP & Hleast); try done;
    (split; [by apply pystr_eqb_eq|]); (split;
      [ apply list_elem_of_filter; by split
      | intros r' Hr'; apply list_elem_of_filter in Hr' as [HP' Hin'];
        by apply Hleast ]).
Qed.

Lemma lookup_selects_earliest_witness :
  earliest_of (select_Files_where_file_path (db Scenario.edited) "/w/x.txt")
    Scenario.row1.
Proof.
  refine (proj2 (proj1 (lookup_selects_earliest (db Scenario.edited)
                          "/w/x.txt" Scenario.row1 _) _)).
  - vm_compute. repeat constructor.
  - vm_compute. reflexivity.
Defined.

(** ** C2: the two inserts of the history writer *)

(** The [Files] insert of a modification is refused; the [Events]
    insert that follows is carried out all the same and committed, with
    the identifier the cursor still holds from the scan. *)
Lemma history_writer_atomic_counterexample :
  let s' := write_history refusing_store
              (PyStr "x.txt") (PyStr "/w/x.txt") (PyStr Scenario.t0)
              (PyStr Scenario.t1) NULL (PyStr "ed82cd11")
              (PyStr "jean") (PyStr "Standard User")
              (PyStr "Modified") (PyStr Scenario.t1) in
  execute_insert_Files refusing_store
    (PyStr "x.txt") (PyStr "/w/x.txt") (PyStr Scenario.t0)
    (PyStr Scenario.t1) NULL (PyStr "ed82cd11")
    (PyStr "jean") (PyStr "Standard User")
  = SqlError (consume_fault refusing_store)
  /\ Files (committed s') = Files (committed refusing_store)
  /\ Events (committed s') =
       Events (committed refusing_store)
         ++ [{| event_id := 2; event_type := PyStr "Modified";
                event_time := PyStr Scenario.t1; ev_file_id := PyInt 1 |}]
  /\ committed s' <> committed refusing_store.
Proof.
  split; [by vm_compute|]. split; [by vm_compute|]. split; [by vm_compute|].
  vm_compute. discriminate.
Qed.

(** C2 (amended).  Each of the two inserts is a transaction of its own,
    committed or rolled back independently of the other.  Whatever the
    storage layer does to the two [execute] and the two [commit] calls:
    the [Files] row is committed exactly when its insert was stored, the
    [Events] row exactly when its insert was stored; the [Events] insert
    is attempted in every case, with the value of [cursor.lastrowid] as
    [file_id], which is the key of the [Files] row whenever its INSERT
    ran (also when its commit was then refused and the row rolled back)
    and the value from before the call when the INSERT itself was
    refused. *)
Theorem history_writer_independent_commits (s : Store)
    (fn fp et : string) (ct mt dt ck u r tm : pyval) :
  clean s ->
  let row := new_Files_row s (PyStr fn) (PyStr fp) ct mt dt ck u r in
  let '(o1, faults1) := next_outcome (io_faults s) in
  let '(o2, faults2) := next_outcome faults1 in
  let file_id_read :=
    match o1 with
    | ExecuteRefused => lastrowid s
    | _ => PyInt (file_id row)
    end in
  let ev := new_Events_row s (PyStr et) tm file_id_read in
  let s' := write_history s (PyStr fn) (PyStr fp) ct mt dt ck u r
              (PyStr et) tm in
  Files (committed s')
  = Files (committed s) ++ match o1 with Stored => [row] | _ => [] end
  /\ Events (committed s')
     = Events (committed s) ++ match o2 with Stored => [ev] | _ => [] end
  /\ lastrowid s'
     = match o2 with
       | ExecuteRefused => file_id_read
       | _ => PyInt (event_id ev)
       end
  /\ clean s'
  /\ io_faults s' = faults2.
Proof.
  intros Hclean. unfold clean in Hclean.
  unfold write_history, insert_event, execute_insert_Events, insert_file,
    execute_insert_Files, next_fault, consume_fault, next_outcome,
    new_Events_row, new_Files_row, commit, rollback, clean.
  destruct (io_faults s) as [|[] [|[] [|[] [|[] rest]]]]; simpl;
    rewrite ?Hclean, ?app_nil_r; done.
Qed.

Lemma history_writer_independent_commits_witness :
  Files (committed
           (write_history commit_refusing_store
              (PyStr "x.txt") (PyStr "/w/x.txt") (PyStr Scenario.t0)
              (PyStr Scenario.t1) (PyStr "NULL") (PyStr "ed82cd11")
              (PyStr "jean") (PyStr "Standard User")
              (PyStr "Modified") (PyStr Scenario.t1)))
  = Files (committed commit_refusing_store) ++ []
  /\ Events (committed
              (write_history commit_refusing_store
                 (PyStr "x.txt") (PyStr "/w/x.txt") (PyStr Scenario.t0)
                 (PyStr Scenario.t1) (PyStr "NULL") (PyStr "ed82cd11")
                 (PyStr "jean") (PyStr "Standard User")
                 (PyStr "Modified") (PyStr Scenario.t1)))
     = Events (committed commit_refusing_store)
         ++ [new_Events_row commit_refusing_store (PyStr "Modified")
               (PyStr Scenario.t1) (PyInt 2)].
Proof.
  pose proof (history_writer_independent_commits commit_refusing_store
                "x.txt" "/w/x.txt" "Modified"
                (PyStr Scenario.t0) (PyStr Scenario.t1)
                (PyStr "NULL") (PyStr "ed82cd11") (PyStr "jean")
                (PyStr "Standard User") (PyStr Scenario.t1) eq_refl)
    as (Hfiles & Hevents & _).
  split; [exact Hfiles|exact Hevents].
Defined.

(** ** Handlers: shared facts *)

Lemma checksum_truthy_exists (os : OS) (p : string) :
  truthy (calculate_crc32_checksum os p) = true ->
  exists st, fs os p = Some st.
Proof.
  unfold calculate_crc32_checksum. destruct (fs os p); [eauto|done].
Qed.

Lemma checksum_truthy_getmtime (os : OS) (p : string) :
  truthy (calculate_crc32_checksum os p) = true ->
  exists st, fs os p = Some st /\ getmtime os p = Some (st_mtime st).
Proof.
  intros [st Hst]%checksum_truthy_exists. exists st. split; [done|].
  unfold getmtime. by rewrite Hst.
Qed.

(** ** C3: a modification of an unknown path *)

(** [/w/x.txt] exists and can be fingerprinted, the store knows no
    record for it: the handler returns without writing anything. *)
Lemma modified_unknown_path_counterexample :
  truthy (calculate_crc32_checksum Scenario.os_edit "/w/x.txt") = true
  /\ fetchone (select_Files_where_file_path (db Demo.fresh_monitor) "/w/x.txt")
     = None
  /\ on_modified Scenario.os_edit (Demo.file_event "/w/x.txt") Demo.fresh_monitor
     = Returns Demo.fresh_monitor
  /\ Files (committed (db Demo.fresh_monitor)) = []
  /\ Events (committed (db Demo.fresh_monitor)) = [].
Proof. repeat split; by vm_compute. Qed.

(** C3 (amended).  When no stored record has the path of a [Modified]
    signal, the handler writes nothing, whether or not the fingerprint
    could be computed: the watcher state is returned as it was. *)
Theorem modified_unknown_path_dropped (os : OS) (event : FsEvent) (m : Monitor) :
  fetchone (select_Files_where_file_path (db m) (src_path event)) = None ->
  on_modified os event m = Returns m.
Proof.
  intros Hmiss. unfold on_modified.
  destruct (is_directory event); [done|].
  destruct (truthy (calculate_crc32_checksum os (src_path event))) eqn:Hck;
    [|done].
  destruct (checksum_truthy_getmtime _ _ Hck) as (st & _ & ->).
  by rewrite Hmiss.
Qed.

Lemma modified_unknown_path_dropped_witness :
  on_modified Scenario.os_edit (Demo.file_event "/w/x.txt") Demo.fresh_monitor
  = Returns Demo.fresh_monitor.
Proof.
  apply (modified_unknown_path_dropped Scenario.os_edit
           (Demo.file_event "/w/x.txt") Demo.fresh_monitor).
  vm_compute. reflexivity.
Defined.

Lemma hex_of_nonempty (fuel : nat) (n : Z) (acc : string) :
  acc <> EmptyString -> Fingerprint.hex_of fuel n acc <> EmptyString.
Proof.
  revert n acc. induction fuel as [|fuel IH]; intros n acc Hacc; simpl; [done|].
  destruct (n <? 16); [done|]. by apply IH.
Qed.

Lemma format_08x_nonempty (n : Z) : Fingerprint.format_08x n <> EmptyString.
Proof.
  unfold Fingerprint.format_08x.
  set (digits := Fingerprint.hex_of _ _ _).
  assert (digits <> EmptyString) as Hd.
  { subst digits. simpl. destruct (n <? 16); [done|]. by apply hex_of_nonempty. }
  destruct (8 - String.length digits)%nat; simpl; done.
Qed.

(** A file that can be read has a fingerprint, and it is a true value. *)
Lemma checksum_readable (os : OS) (p : string) (st : FileStat)
    (content : list byte) :
  fs os p = Some st -> st_data st = Some content ->
  truthy (calculate_crc32_checksum os p) = true.
Proof.
  intros Hfs Hdata. unfold calculate_crc32_checksum. rewrite Hfs, Hdata. simpl.
  apply negb_true_iff, String.eqb_neq, format_08x_nonempty.
Qed.

(** ** C4: what a rename carries forward *)

(** [/w/x.txt] was scanned with hash [352441c2] and later modified, so that
    its most recent record, row 2, has hash [ed82cd11].  The rename to
    [/w/y.txt] writes row 3 with the hash of row 1. *)
Lemma rename_current_hash_counterexample :
  most_recent_of (select_Files_where_file_path (db Scenario.edited) "/w/x.txt")
    Scenario.row2
  /\ most_recent_of (select_Files_where_filename (db Scenario.edited) "x.txt")
       Scenario.row2
  /\ hash_value Scenario.row2 = PyStr "ed82cd11"
  /\ exists row3,
       Files (committed (db (state_of
                (on_moved Scenario.os_move
                   (Demo.move_event "/w/x.txt" "/w/y.txt") Scenario.edited))))
       = [Scenario.row1; Scenario.row2; row3]
       /\ file_path row3 = PyStr "/w/y.txt"
       /\ hash_value row3 = PyStr "352441c2"
       /\ hash_value row3 <> hash_value Scenario.row2.
Proof.
  assert (forall l, l = [Scenario.row1; Scenario.row2] ->
                    most_recent_of l Scenario.row2) as Hrecent.
  { intros l ->. split; [right; left|].
    intros r' Hr'. repeat (apply elem_of_cons in Hr' as [->|Hr']); try done.
    by apply elem_of_nil in Hr'. }
  split; [apply Hrecent; by vm_compute|].
  split; [apply Hrecent; by vm_compute|].
  split; [done|].
  eexists. split; [by vm_compute|]. by vm_compute.
Qed.

(** C4 (amended).  When the fingerprint at the destination succeeds and
    the lookup by the old basename returns a record, the rename handler
    writes a record for the new path whose [hash_value], [user] and
    [role] are those of the returned record (by C1 the earliest one with
    that basename), whatever the content found at the destination; its
    creation time is carried forward too, the modification time is read
    from the destination, and the paired event is the rename. *)
Theorem rename_carries_matched_record (os : OS) (event : FsEvent) (m : Monitor)
    (result : FilesRow) (st : FileStat) (content : list byte) :
  is_directory event = false ->
  fs os (dest_path event) = Some st ->
  st_data st = Some content ->
  fetchone (select_Files_where_filename (db m) (basename os (src_path event)))
    = Some result ->
  storage_sound (db m) ->
  let old_name := basename os (src_path event) in
  let new_name := basename os (dest_path event) in
  let row :=
    {| file_id := next_rowid (seq_Files (working (db m)))
                    (map file_id (Files (working (db m))));
       filename := PyStr new_name;
       file_path := PyStr (dest_path event);
       creation_time := creation_time result;
       modification_time := PyStr (st_mtime st);
       deletion_time := PyStr "NULL";
       hash_value := hash_value result;
       user := user result;
       role := role result |} in
  let ev :=
    {| event_id := next_rowid (seq_Events (working (db m)))
                     (map event_id (Events (working (db m))));
       event_type := PyStr (String.append "Renamed from "
                              (String.append old_name
                                 (String.append " to " new_name)));
       event_time := PyStr (st_mtime st);
       ev_file_id := PyInt (file_id row) |} in
  exists m',
    on_moved os event m = Returns m'
    /\ processed_files m' = processed_files m
    /\ Files (committed (db m')) = Files (working (db m)) ++ [row]
    /\ Events (committed (db m')) = Events (working (db m)) ++ [ev].
Proof.
  intros Hdir Hfs Hdata Hfetch Hsound old_name new_name row ev.
  unfold on_moved. cbv zeta. rewrite Hdir.
  rewrite (checksum_readable _ _ _ _ Hfs Hdata).
  unfold getmtime. rewrite Hfs, Hfetch.
  eexists. split; [reflexivity|]. split; [done|].
  simpl. rewrite write_history_ok by done. simpl. done.
Qed.

Lemma rename_carries_matched_record_witness :
  exists m',
    on_moved Scenario.os_move (Demo.move_event "/w/x.txt" "/w/y.txt")
      Scenario.edited = Returns m'
    /\ exists row, last (Files (committed (db m'))) = Some row
                   /\ hash_value row = hash_value Scenario.row1.
Proof.
  destruct (rename_carries_matched_record Scenario.os_move
              (Demo.move_event "/w/x.txt" "/w/y.txt") Scenario.edited
              Scenario.row1
              (Demo.file Scenario.t0 Scenario.t1 [x61; x62; x63; x64])
              [x61; x62; x63; x64]
              eq_refl eq_refl eq_refl eq_refl (Forall_nil_2 _))
    as (m' & Hrun & _ & Hfiles & _).
  exists m'. split; [exact Hrun|].
  eexists. split; [rewrite Hfiles; apply last_snoc|reflexivity].
Defined.

(** ** C5: the dedup guard *)

(** A [Created] signal puts its path into [processed_files] however the
    handler ends. *)
Lemma on_created_marks (os : OS) (event : FsEvent) (m : Monitor) :
  is_directory event = false ->
  src_path event ∈ processed_files (state_of (on_created os event m)).
Proof.
  intros Hdir. unfold on_created. rewrite Hdir.
  case_bool_decide as Hin; [done|].
  destruct (fs os (src_path event)); [|simpl; set_solver].
  destruct (truthy _); simpl; set_solver.
Qed.

(** A [Created] signal for a path already in [processed_files] is
    discarded. *)
Lemma on_created_discards (os : OS) (event : FsEvent) (m : Monitor) :
  src_path event ∈ processed_files m ->
  on_created os event m = Returns m.
Proof.
  intros Hin. unfold on_created. destruct (is_directory event); [done|].
  by rewrite bool_decide_eq_true_2.
Qed.

(** [/w/locked.txt] cannot be opened when the first [Created] signal
    arrives and can be read when the second one does: the first signal
    marks the path and writes nothing, the second is discarded, and no
    pair at all has been written for the path. *)
Lemma created_twice_no_pair_counterexample :
  let m1 := state_of (on_created Races.os_locked
                        (Demo.file_event "/w/locked.txt") Demo.fresh_monitor) in
  let m2 := state_of (on_created Races.os_unlocked
                        (Demo.file_event "/w/locked.txt") m1) in
  calculate_crc32_checksum Races.os_locked "/w/locked.txt" = PyNone
  /\ truthy (calculate_crc32_checksum Races.os_unlocked "/w/locked.txt") = true
  /\ Files (committed (db m2)) = []
  /\ Events (committed (db m2)) = []
  /\ length (Files (committed (db m2))) <> 1%nat.
Proof. repeat split; by vm_compute. Qed.

(** C5 (amended).  Two [Created] signals for the same path in one
    session, the path not seen before and nothing pending on the
    connection: the second signal, whatever the world looks like by
    then, is discarded by the guard and leaves the watcher state as the
    first one left it; together they write at most one [Files] row and
    at most one event.  They write exactly one pair when the file can
    be fingerprinted at the first signal and the storage layer refuses
    nothing, and nothing at all when the file is missing or cannot be
    opened at the first signal: the path is marked before it is
    fingerprinted. *)
Theorem created_twice_writes_at_most_once (os1 os2 : OS) (e1 e2 : FsEvent)
    (m : Monitor) :
  is_directory e1 = false ->
  is_directory e2 = false ->
  src_path e2 = src_path e1 ->
  src_path e1 ∉ processed_files m ->
  clean (db m) ->
  let m1 := state_of (on_created os1 e1 m) in
  on_created os2 e2 m1 = Returns m1
  /\ exists rows evs,
       Files (committed (db m1)) = Files (committed (db m)) ++ rows
       /\ Events (committed (db m1)) = Events (committed (db m)) ++ evs
       /\ (length rows <= 1)%nat /\ (length evs <= 1)%nat
       /\ (calculate_crc32_checksum os1 (src_path e1) = PyNone ->
           rows = [] /\ evs = [])
       /\ (forall st content,
             fs os1 (src_path e1) = Some st ->
             st_data st = Some content ->
             storage_sound (db m) ->
             let row :=
               {| file_id := next_rowid (seq_Files (committed (db m)))
                               (map file_id (Files (committed (db m))));
                  filename := PyStr (basename os1 (src_path e1));
                  file_path := PyStr (src_path e1);
                  creation_time := PyStr (st_ctime st);
                  modification_time := PyStr "NULL";
                  deletion_time := PyStr "NULL";
                  hash_value := calculate_crc32_checksum os1 (src_path e1);
                  user := PyStr (getuser os1);
                  role := PyStr (current_role os1) |} in
             let ev :=
               {| event_id := next_rowid (seq_Events (committed (db m)))
                                (map event_id (Events (committed (db m))));
                  event_type := PyStr "Creation";
                  event_time := PyStr (st_ctime st);
                  ev_file_id := PyInt (file_id row) |} in
             rows = [row] /\ evs = [ev]).
Proof.
  intros Hd1 Hd2 Hsame Hnew Hclean m1.
  split.
  { apply on_created_discards. rewrite Hsame. by apply on_created_marks. }
  subst m1. unfold on_created. rewrite Hd1.
  rewrite bool_decide_eq_false_2 by done.
  destruct (fs os1 (src_path e1)) as [st|] eqn:Hfs.
  2:{ exists [], []. simpl. rewrite !app_nil_r.
      split; [done|]. split; [done|]. split; [lia|]. split; [lia|].
      split; [done|]. intros st' data [=]. }
  destruct (truthy (calculate_crc32_checksum os1 (src_path e1))) eqn:Hck.
  2:{ exists [], []. simpl. rewrite !app_nil_r.
      split; [done|]. split; [done|]. split; [lia|]. split; [lia|].
      split; [done|].
      intros st' data [= <-] Hdata. exfalso.
      by rewrite (checksum_readable _ _ _ _ Hfs Hdata) in Hck. }
  simpl state_of. simpl db.
  destruct (write_history_commits (db m) (basename os1 (src_path e1))
              (src_path e1) "Creation" (PyStr (st_ctime st)) NULL NULL
              (calculate_crc32_checksum os1 (src_path e1))
              (PyStr (getuser os1)) (PyStr (current_role os1))
              (PyStr (st_ctime st)) Hclean)
    as (rows & evs & Hfiles & Hevents & Hrows & Hevs & _).
  exists rows, evs. split; [done|]. split; [done|].
  split; [destruct Hrows as [->| ->]; simpl; lia|].
  split; [destruct Hevs as [->|[fid ->]]; simpl; lia|].
  split; [intros Hnone; by rewrite Hnone in Hck|].
  intros st' data [= <-] Hdata Hsound.
  rewrite write_history_ok in Hfiles, Hevents by done.
  simpl in Hfiles, Hevents. unfold clean in Hclean.
  rewrite <- Hclean in Hfiles, Hevents.
  apply app_inv_head in Hfiles, Hevents. subst rows evs.
  unfold new_Files_row. by rewrite Hclean.
Qed.

Lemma created_twice_writes_at_most_once_witness :
  let m1 := state_of (on_created Races.os_locked
                        (Demo.file_event "/w/locked.txt") Demo.fresh_monitor) in
  on_created Races.os_unlocked (Demo.file_event "/w/locked.txt") m1 = Returns m1.
Proof.
  refine (proj1 (created_twice_writes_at_most_once Races.os_locked
                   Races.os_unlocked
                   (Demo.file_event "/w/locked.txt")
                   (Demo.file_event "/w/locked.txt")
                   Demo.fresh_monitor eq_refl eq_refl eq_refl _ eq_refl)).
  vm_compute. set_solver.
Defined.

(** ** C6: what a deletion carries forward *)

(** [/w/x.txt] was scanned while the monitor ran as [jean]; its deletion
    is observed while the monitor runs as [ana].  The record written for
    the deletion names [ana], not the user of the matched record. *)
Lemma deletion_user_counterexample :
  fetchone (select_Files_where_file_path (db Scenario.scanned) "/w/x.txt")
    = Some Scenario.row1
  /\ exists row,
       Files (committed (db (state_of
                (on_deleted Scenario.os_gone (Demo.file_event "/w/x.txt")
                   Scenario.scanned))))
       = [Scenario.row1; row]
       /\ deletion_time row = PyStr Scenario.t2
       /\ user row = PyStr "ana"
       /\ user row <> user Scenario.row1.
Proof.
  split; [by vm_compute|].
  eexists. split; [by vm_compute|]. by vm_compute.
Qed.

(** C6 (amended).  When the lookup by full path returns a record, the
    deletion handler writes a record that takes [creation_time],
    [modification_time], [hash_value] and [role] from the returned
    record, has the path of the signal (which is the path of the
    returned record) and its basename as file name (the file name of
    the returned record whenever that record is named after its path),
    has the current time as [deletion_time], and names the user the
    monitor runs as at that moment; the paired [Deletion] event has the
    same time. *)
Theorem deletion_carries_forward (os : OS) (event : FsEvent) (m : Monitor)
    (result : FilesRow) :
  is_directory event = false ->
  fetchone (select_Files_where_file_path (db m) (src_path event)) = Some result ->
  storage_sound (db m) ->
  let row :=
    {| file_id := next_rowid (seq_Files (working (db m)))
                    (map file_id (Files (working (db m))));
       filename := PyStr (basename os (src_path event));
       file_path := PyStr (src_path event);
       creation_time := creation_time result;
       modification_time := modification_time result;
       deletion_time := PyStr (now os);
       hash_value := hash_value result;
       user := PyStr (getuser os);
       role := role result |} in
  let ev :=
    {| event_id := next_rowid (seq_Events (working (db m)))
                     (map event_id (Events (working (db m))));
       event_type := PyStr "Deletion";
       event_time := PyStr (now os);
       ev_file_id := PyInt (file_id row) |} in
  exists m',
    on_deleted os event m = Returns m'
    /\ Files (committed (db m')) = Files (working (db m)) ++ [row]
    /\ Events (committed (db m')) = Events (working (db m)) ++ [ev]
    /\ file_path row = file_path result
    /\ (filename result = PyStr (basename os (src_path event)) ->
        filename row = filename result).
Proof.
  intros Hdir Hfetch Hsound row ev.
  unfold on_deleted. cbv zeta. rewrite Hdir, Hfetch.
  eexists. split; [reflexivity|].
  simpl. rewrite write_history_ok by done. simpl.
  split; [done|]. split; [done|]. split; [|done].
  apply head_Some_elem_of, list_elem_of_filter in Hfetch as [Hp _].
  symmetry. by apply pystr_eqb_eq.
Qed.

Lemma deletion_carries_forward_witness :
  exists m',
    on_deleted Scenario.os_gone (Demo.file_event "/w/x.txt") Scenario.scanned
      = Returns m'
    /\ exists row, last (Files (committed (db m'))) = Some row
                   /\ hash_value row = hash_value Scenario.row1
                   /\ user row = PyStr "ana".
Proof.
  destruct (deletion_carries_forward Scenario.os_gone
              (Demo.file_event "/w/x.txt") Scenario.scanned Scenario.row1
              eq_refl eq_refl (Forall_nil_2 _))
    as (m' & Hrun & Hfiles & _).
  exists m'. split; [exact Hrun|].
  eexists. split; [rewrite Hfiles; apply last_snoc|]. split; reflexivity.
Defined.

(** ** C7: the order of scan and subscription *)

(** Starting the monitor on [/w]: the scan has returned its list before
    the first watch is scheduled. *)
Lemma watcher_armed_first_counterexample :
  snd (monitor_directories_startup Scenario.os_scan Demo.fresh_store ["/w"%string])
  = [ScanCompleted (snd (scan_directory Scenario.os_scan Demo.fresh_store
                           ["/w"%string]));
     ObserverSchedule "/w" true;
     ObserverStart;
     Print "File monitoring active. Press Ctrl+C to terminate."]
  /\ armed_before_scan_end
       (snd (monitor_directories_startup Scenario.os_scan Demo.fresh_store
               ["/w"%string])) = false.
Proof. split; by vm_compute. Qed.

(** C7 (amended).  [monitor_directories] runs the baseline scan to
    completion first; only then does it schedule one recursive watch per
    directory, in the order given, and start the observer.  The watcher
    starts on the store the scan has left and with an empty dedup
    set. *)
Theorem scan_completes_before_watcher (os : OS) (s : Store)
    (directories : list string) :
  let '(m, trace) := monitor_directories_startup os s directories in
  trace = ScanCompleted (snd (scan_directory os s directories))
            :: map (fun directory => ObserverSchedule directory true) directories
            ++ [ObserverStart;
                Print "File monitoring active. Press Ctrl+C to terminate."]
  /\ armed_before_scan_end trace = false
  /\ db m = fst (scan_directory os s directories)
  /\ processed_files m = ∅.
Proof.
  unfold monitor_directories_startup.
  destruct (scan_directory os s directories) as [s' details]. simpl. done.
Qed.

(** ** The baseline scan as a whole *)

Lemma scan_commits_refl (os : OS) (entries : list (string * string))
    (a : Store * list pyval) :
  clean (fst a) -> scan_commits os entries a a.
Proof.
  intros Hc. exists [], [], []. rewrite !app_nil_r.
  repeat split; try done; constructor.
Qed.

Lemma scan_commits_trans (os : OS) (entries : list (string * string))
    (a b c : Store * list pyval) :
  scan_commits os entries a b -> scan_commits os entries b c ->
  scan_commits os entries a c.
Proof.
  intros (d1 & r1 & e1 & Hd1 & Hf1 & He1 & Hr1 & Hv1 & Hi1 & Hl1 & Hc1 & Hs1)
         (d2 & r2 & e2 & Hd2 & Hf2 & He2 & Hr2 & Hv2 & Hi2 & Hl2 & Hc2 & Hs2).
  exists (d1 ++ d2), (r1 ++ r2), (e1 ++ e2).
  rewrite Hd2, Hd1, Hf2, Hf1, He2, He1, !app_assoc, !length_app.
  split; [done|]. split; [done|]. split; [done|].
  split; [by apply Forall_app|]. split; [by apply Forall_app|].
  split; [by apply Forall_app|]. split; [lia|]. split; [done|].
  intros Hs. destruct (Hs1 Hs) as (Hsb & Hp1 & Hn1).
  destruct (Hs2 Hsb) as (Hsc & Hp2 & Hn2).
  split; [done|]. split; [by apply Forall2_app|]. lia.
Qed.

Lemma scan_file_commits (os : OS) (entries : list (string * string))
    (a : Store * list pyval) (root file : string) :
  (root, file) ∈ entries ->
  clean (fst a) ->
  scan_commits os entries a (state_of (scan_file os a root file)).
Proof.
  destruct a as [s details]. simpl fst. intros Hin Hclean. unfold scan_file.
  destruct (fs os (path_join os root file)) as [st|] eqn:Hfs;
    [|by apply scan_commits_refl].
  destruct (truthy _) eqn:Hck; [|by apply scan_commits_refl].
  simpl state_of.
  destruct (write_history_commits s file (path_join os root file)
              "Scanned in directory" (PyStr (st_ctime st)) (PyStr (st_mtime st))
              NULL (calculate_crc32_checksum os (path_join os root file))
              (PyStr (getuser os)) (PyStr (current_role os))
              (PyStr (st_ctime st)) Hclean)
    as (rows & evs & Hfiles & Hevents & Hrows & Hevs & Hclean').
  exists [file_detail file (path_join os root file) (st_ctime st) (st_mtime st)
            (calculate_crc32_checksum os (path_join os root file))], rows, evs.
  simpl fst; simpl snd.
  split; [done|]. split; [done|]. split; [done|].
  split.
  { destruct Hrows as [->| ->]; constructor; [|constructor].
    split; [done|]. exists root, file, st. by repeat split. }
  split.
  { destruct Hevs as [->|[fid ->]]; constructor; [|constructor].
    split; [done|]. by exists root, file, st. }
  split. { constructor; [|constructor]. unfold is_file_detail. eauto 10. }
  split. { destruct Hrows as [->| ->]; simpl; lia. }
  split; [done|].
  intros Hs. split; [by apply write_history_sound|].
  rewrite write_history_ok in Hfiles, Hevents by done.
  simpl in Hfiles, Hevents. unfold clean in Hclean.
  rewrite <- Hclean in Hfiles, Hevents.
  apply app_inv_head in Hfiles, Hevents. subst rows evs.
  split; [|done].
  constructor; [|constructor]. unfold scanned_pair; simpl.
  rewrite Hclean. repeat split; eauto.
Qed.

Lemma scan_loop_commits (os : OS) (entries todo : list (string * string)) :
  (forall entry, entry ∈ todo -> entry ∈ entries) ->
  forall a : Store * list pyval,
    clean (fst a) ->
    scan_commits os entries a (state_of (scan_loop os a todo)).
Proof.
  induction todo as [|[root file] todo IH]; intros Hsub a Hc; simpl.
  - by apply scan_commits_refl.
  - assert ((root, file) ∈ entries) as Hin by (apply Hsub; left).
    pose proof (scan_file_commits os entries a root file Hin Hc) as Hstep.
    destruct (scan_file os a root file) as [a'|e a']; simpl in *; [|done].
    eapply scan_commits_trans; [exact Hstep|]. apply IH.
    + intros entry Hentry. apply Hsub. by right.
    + by destruct Hstep as (? & ? & ? & _ & _ & _ & _ & _ & _ & _ & ? & _).
Qed.

Lemma scan_directory_commits (os : OS) (s : Store) (directories : list string) :
  clean s ->
  exists details,
    scan_directory os s directories
      = (fst (scan_directory os s directories), PyList details)
    /\ scan_commits os (walked os directories) (s, [])
         (fst (scan_directory os s directories), details).
Proof.
  intros Hc. unfold scan_directory.
  pose proof (scan_loop_commits os (walked os directories)
                (walked os directories) (fun _ H => H) (s, []) Hc) as Hext.
  destruct (state_of _) as [s' details]. by exists details.
Qed.

Lemma scan_loop_details (os : OS) (entries : list (string * string)) :
  forall (s : Store) (details : list pyval),
    snd (state_of (scan_loop os (s, details) entries))
    = details ++ scanned_details os entries.
Proof.
  induction entries as [|[root file] entries IH]; intros s details; simpl.
  { by rewrite app_nil_r. }
  destruct (fs os (path_join os root file)) as [st|]; simpl;
    [|by rewrite app_nil_r].
  destruct (truthy _); [|apply IH].
  rewrite IH. by rewrite <- app_assoc.
Qed.

Lemma scan_directory_details (os : OS) (s : Store) (directories : list string) :
  snd (scan_directory os s directories)
  = PyList (scanned_details os (walked os directories)).
Proof.
  unfold scan_directory.
  pose proof (scan_loop_details os (walked os directories) s []) as Hd.
  destruct (state_of _) as [s' details]. simpl in *. by rewrite Hd.
Qed.

(** ** C8: what the scan writes *)

(** The row the scan writes for [/w/x.txt] has the four-character text
    ["NULL"] in [deletion_time], which is not the null value. *)
Lemma scan_deletion_null_counterexample :
  Files (committed (fst (scan_directory Scenario.os_scan Demo.fresh_store
                           ["/w"%string])))
  = [Scenario.row1]
  /\ deletion_time Scenario.row1 = PyStr "NULL"
  /\ deletion_time Scenario.row1 <> PyNone.
Proof. split; [by vm_compute|]. by split. Qed.

(** When the storage layer refuses the INSERT of the event of [a.txt]
    and the INSERT of the row of [b.txt], the one event that is stored
    carries the key of the row of [a.txt] and the creation time of
    [b.txt]: under refusals the key in an event does not identify the
    file the event was written for. *)
Lemma scan_event_of_another_file_example :
  let s' := fst (scan_directory os_two_files faltering_store ["/w"%string]) in
  exists row ev,
    Files (committed s') = [row]
    /\ Events (committed s') = [ev]
    /\ file_path row = PyStr "/w/a.txt"
    /\ creation_time row = PyStr Scenario.t0
    /\ ev_file_id ev = PyInt (file_id row)
    /\ event_time ev = PyStr Scenario.t1.
Proof. eexists _, _. split; [by vm_compute|]. by vm_compute. Qed.

(** C8 (amended).  Started on a connection with nothing pending, and
    whatever the storage layer refuses, the scan commits rows to [Files]
    and [Events] and leaves nothing pending.  Every [Files] row it
    commits has the text ["NULL"] as [deletion_time] (a string, as the
    docstring of [insert_file] announces, not the null value), the name
    and path of one of the files visited and the creation time of that
    file on disk as [creation_time].  Every event it commits has the
    type ["Scanned in directory"] and the creation time of one of the
    files visited as [event_time].  On a storage layer that refuses
    nothing the rows come in pairs: the event of a [Files] row has the
    key of the row as [file_id] and its [creation_time] as
    [event_time]. *)
Theorem scan_writes_text_NULL_and_creation_time (os : OS) (s : Store)
    (directories : list string) :
  clean s ->
  let s' := fst (scan_directory os s directories) in
  exists rows evs,
    Files (committed s') = Files (committed s) ++ rows
    /\ Events (committed s') = Events (committed s) ++ evs
    /\ clean s'
    /\ Forall (scanned_row os (walked os directories)) rows
    /\ Forall (fun r => deletion_time r <> PyNone) rows
    /\ Forall (scanned_event os (walked os directories)) evs
    /\ (storage_sound s -> Forall2 (scanned_pair os) rows evs).
Proof.
  intros Hc s'. subst s'.
  destruct (scan_directory_commits os s directories Hc) as (details & _ & Hext).
  destruct Hext as (d & rows & evs & _ & Hf & He & Hr & Hv & _ & _ & Hc' & Hs).
  exists rows, evs. simpl in *.
  split; [done|]. split; [done|]. split; [done|]. split; [done|].
  split; [|split; [done|by intros Hsound; apply Hs]].
  eapply Forall_impl; [exact Hr|]. intros r [Hnull _]. by rewrite Hnull.
Qed.

Lemma scan_writes_text_NULL_and_creation_time_witness :
  exists rows evs,
    Files (committed (fst (scan_directory os_two_files faltering_store
                             ["/w"%string])))
    = Files (committed faltering_store) ++ rows
    /\ Events (committed (fst (scan_directory os_two_files faltering_store
                                 ["/w"%string])))
       = Events (committed faltering_store) ++ evs
    /\ Forall (scanned_row os_two_files (walked os_two_files ["/w"%string])) rows
    /\ Forall (scanned_event os_two_files (walked os_two_files ["/w"%string])) evs.
Proof.
  destruct (scan_writes_text_NULL_and_creation_time os_two_files
              faltering_store ["/w"%string] eq_refl)
    as (rows & evs & Hf & He & _ & Hr & _ & Hv & _).
  exists rows, evs. split; [exact Hf|]. split; [exact He|].
  split; [exact Hr|exact Hv].
Defined.

(** ** C9: what the scan returns *)

(** The scan of [/w] returns a list with one dictionary; the scan of no
    directory at all returns the empty list.  Neither is a number. *)
Lemma scan_returns_count_counterexample :
  snd (scan_directory Scenario.os_scan Demo.fresh_store ["/w"%string])
  = PyList [file_detail "x.txt" "/w/x.txt" Scenario.t0 Scenario.t0
              (PyStr "352441c2")]
  /\ snd (scan_directory Scenario.os_scan Demo.fresh_store []) = PyList []
  /\ ~ exists n : Z,
         snd (scan_directory Scenario.os_scan Demo.fresh_store ["/w"%string])
         = PyInt n.
Proof.
  split; [by vm_compute|]. split; [by vm_compute|].
  intros [n Hn]. vm_compute in Hn. discriminate.
Qed.

(** C9 (amended).  For every list of directories and every store,
    [scan_directory] returns a list, as its docstring says: one
    dictionary with the keys [filename], [file_path], [creation_time],
    [last_modified_time] and [checksum] for every file it fingerprinted
    before the scan ended, in the order of the scan, whether or not the
    inserts for the file were accepted.  Started on a connection with
    nothing pending, the scan commits at most as many [Files] rows as the
    list has entries, and exactly as many on a storage layer that refuses
    nothing. *)
Theorem scan_returns_file_details (os : OS) (s : Store)
    (directories : list string) :
  let details := scanned_details os (walked os directories) in
  snd (scan_directory os s directories) = PyList details
  /\ Forall is_file_detail details
  /\ (clean s ->
      exists rows,
        Files (committed (fst (scan_directory os s directories)))
        = Files (committed s) ++ rows
        /\ (length rows <= length details)%nat
        /\ (storage_sound s -> length rows = length details)).
Proof.
  intros details. subst details.
  pose proof (scan_directory_details os s directories) as Hret.
  split; [done|].
  assert (Forall is_file_detail (scanned_details os (walked os directories)))
    as Hall.
  { generalize (walked os directories). intros entries.
    induction entries as [|[root file] entries IH]; simpl; [constructor|].
    destruct (fs os (path_join os root file)) as [st|]; [|constructor].
    destruct (truthy _); [|done].
    constructor; [|done]. unfold is_file_detail. eauto 10. }
  split; [done|].
  intros Hc.
  destruct (scan_directory_commits os s directories Hc) as (details & Hrun & Hext).
  destruct Hext as (d & rows & evs & Hd & Hf & _ & _ & _ & _ & Hl & _ & Hs).
  simpl in *. subst d.
  assert (details = scanned_details os (walked os directories)) as ->.
  { rewrite Hrun in Hret. simpl in Hret. by injection Hret. }
  exists rows. split; [done|]. split; [done|].
  intros Hsound. by apply Hs.
Qed.

Lemma scan_returns_file_details_witness :
  snd (scan_directory os_two_files faltering_store ["/w"%string])
  = PyList (scanned_details os_two_files (walked os_two_files ["/w"%string]))
  /\ exists rows,
       Files (committed (fst (scan_directory os_two_files faltering_store
                                ["/w"%string])))
       = Files (committed faltering_store) ++ rows
       /\ (length rows
           <= length (scanned_details os_two_files
                        (walked os_two_files ["/w"%string])))%nat.
Proof.
  destruct (scan_returns_file_details os_two_files faltering_store
              ["/w"%string]) as (Hret & _ & Hrows).
  split; [exact Hret|].
  destruct (Hrows eq_refl) as (rows & Hf & Hl & _).
  exists rows. split; [exact Hf|exact Hl].
Defined.

(** ** The invariant of the store

    Nothing is pending between two operations and [Files] is in rowid
    order, on disk and in the view of the connection.  The database [database.py] creates satisfies it and
    the scan and every handler keep it, so the hypotheses [clean] and
    [rowid_ordered] above hold in every state the monitor reaches. *)

Lemma write_history_clean (s : Store) (fn fp ct mt dt ck u r et tm : pyval) :
  clean (write_history s fn fp ct mt dt ck u r et tm).
Proof.
  unfold write_history, insert_event, execute_insert_Events, clean.
  by repeat case_match.
Qed.

Lemma write_history_invariant (s : Store) (fn fp ct mt dt ck u r et tm : pyval) :
  store_invariant s ->
  store_invariant (write_history s fn fp ct mt dt ck u r et tm).
Proof.
  intros [_ Hord]. split; [apply write_history_clean|].
  by apply write_history_ordered.
Qed.

Lemma fresh_store_invariant : store_invariant Demo.fresh_store.
Proof. split; [done|]. split; constructor. Qed.

Ltac handler_invariant :=
  repeat case_match; simpl; auto using write_history_invariant.

Lemma on_created_invariant (os : OS) (event : FsEvent) (m : Monitor) :
  store_invariant (db m) ->
  store_invariant (db (state_of (on_created os event m))).
Proof. intros Hinv. unfold on_created. handler_invariant. Qed.

Lemma on_modified_invariant (os : OS) (event : FsEvent) (m : Monitor) :
  store_invariant (db m) ->
  store_invariant (db (state_of (on_modified os event m))).
Proof. intros Hinv. unfold on_modified. handler_invariant. Qed.

Lemma on_moved_invariant (os : OS) (event : FsEvent) (m : Monitor) :
  store_invariant (db m) ->
  store_invariant (db (state_of (on_moved os event m))).
Proof. intros Hinv. unfold on_moved. handler_invariant. Qed.

Lemma on_deleted_invariant (os : OS) (event : FsEvent) (m : Monitor) :
  store_invariant (db m) ->
  store_invariant (db (state_of (on_deleted os event m))).
Proof. intros Hinv. unfold on_deleted. handler_invariant. Qed.

Lemma scan_file_invariant (os : OS) (a : Store * list pyval) (root file : string) :
  store_invariant (fst a) ->
  store_invariant (fst (state_of (scan_file os a root file))).
Proof. destruct a as [s details]. intros Hinv. unfold scan_file. handler_invariant. Qed.

Lemma scan_loop_invariant (os : OS) (entries : list (string * string)) :
  forall a : Store * list pyval,
    store_invariant (fst a) ->
    store_invariant (fst (state_of (scan_loop os a entries))).
Proof.
  induction entries as [|[root file] entries IH]; intros a Hinv; simpl; [done|].
  pose proof (scan_file_invariant os a root file Hinv) as Hstep.
  destruct (scan_file os a root file) as [a'|e a']; simpl in *; auto.
Qed.

Lemma scan_directory_invariant (os : OS) (s : Store) (directories : list string) :
  store_invariant s ->
  store_invariant (fst (scan_directory os s directories)).
Proof.
  intros Hinv. unfold scan_directory.
  pose proof (scan_loop_invariant os (walked os directories) (s, []) Hinv).
  by destruct (state_of _).
Qed.


(** ** File names follow paths

    As long as the worlds agree on one basename function [bn] that
    undoes [os.path.join], every row the monitor writes is named after
    its path. *)

Lemma write_history_named (bn : string -> string) (s : Store)
    (fn fp : string) (ct mt dt ck u r et tm : pyval) :
  fn = bn fp ->
  names_consistent bn s ->
  names_consistent bn (write_history s (PyStr fn) (PyStr fp) ct mt dt ck u r et tm).
Proof.
  intros Hfn [Hc Hw].
  assert (Forall (named_by bn)
            (Files (working s)
               ++ [new_Files_row s (PyStr fn) (PyStr fp) ct mt dt ck u r])) as Hnew.
  { apply Forall_app; split; [done|]. constructor; [|constructor].
    exists fp. simpl. by rewrite Hfn. }
  unfold write_history, insert_event, execute_insert_Events,
    insert_file, execute_insert_Files, names_consistent.
  repeat (case_match; simpl in * ); simplify_eq; simpl; done.
Qed.

Lemma on_created_named (os : OS) (event : FsEvent) (m : Monitor) :
  names_consistent (basename os) (db m) ->
  names_consistent (basename os) (db (state_of (on_created os event m))).
Proof.
  intros Hinv. unfold on_created.
  repeat case_match; simpl; auto using write_history_named.
Qed.

Lemma on_modified_named (os : OS) (event : FsEvent) (m : Monitor) :
  names_consistent (basename os) (db m) ->
  names_consistent (basename os) (db (state_of (on_modified os event m))).
Proof.
  intros Hinv. unfold on_modified.
  repeat case_match; simpl; auto using write_history_named.
Qed.

Lemma on_moved_named (os : OS) (event : FsEvent) (m : Monitor) :
  names_consistent (basename os) (db m) ->
  names_consistent (basename os) (db (state_of (on_moved os event m))).
Proof.
  intros Hinv. unfold on_moved.
  repeat case_match; simpl; auto using write_history_named.
Qed.

Lemma on_deleted_named (os : OS) (event : FsEvent) (m : Monitor) :
  names_consistent (basename os) (db m) ->
  names_consistent (basename os) (db (state_of (on_deleted os event m))).
Proof.
  intros Hinv. unfold on_deleted.
  repeat case_match; simpl; auto using write_history_named.
Qed.

Lemma scan_file_named (os : OS) (a : Store * list pyval) (root file : string) :
  (forall root file, basename os (path_join os root file) = file) ->
  names_consistent (basename os) (fst a) ->
  names_consistent (basename os) (fst (state_of (scan_file os a root file))).
Proof.
  destruct a as [s details]. intros Hjoin Hinv. unfold scan_file.
  repeat case_match; simpl; auto using write_history_named.
Qed.

Lemma scan_directory_named (os : OS) (s : Store) (directories : list string) :
  (forall root file, basename os (path_join os root file) = file) ->
  names_consistent (basename os) s ->
  names_consistent (basename os) (fst (scan_directory os s directories)).
Proof.
  intros Hjoin Hinv. unfold scan_directory.
  assert (forall entries a,
            names_consistent (basename os) (fst a) ->
            names_consistent (basename os)
              (fst (state_of (scan_loop os a entries)))) as Hloop.
  { induction entries as [|[root file] entries IH]; intros a Ha; simpl; [done|].
    pose proof (scan_file_named os a root file Hjoin Ha) as Hstep.
    destruct (scan_file os a root file) as [a'|e a']; simpl in *; auto. }
  specialize (Hloop (walked os directories) (s, []) Hinv).
  by destruct (state_of _).
Qed.

(** * Further properties of the code *)

(** ** The fingerprint *)

Lemma lxor_32 (a b : Z) :
  0 <= a < 2 ^ 32 -> 0 <= b < 2 ^ 32 -> 0 <= Z.lxor a b < 2 ^ 32.
Proof.
  intros Ha Hb.
  assert (0 <= Z.lxor a b) as Hnn by (apply Z.lxor_nonneg; lia).
  split; [done|].
  destruct (decide (Z.lxor a b = 0)) as [->|Hne]; [lia|].
  apply Z.log2_lt_pow2; [lia|].
  pose proof (Z.log2_lxor a b ltac:(lia) ltac:(lia)) as Hlog.
  assert (Z.log2 a < 32).
  { destruct (decide (a = 0)) as [->|?]; [simpl; lia|].
    apply Z.log2_lt_pow2; lia. }
  assert (Z.log2 b < 32).
  { destruct (decide (b = 0)) as [->|?]; [simpl; lia|].
    apply Z.log2_lt_pow2; lia. }
  lia.
Qed.

Lemma crc_shift_32 (c : Z) :
  0 <= c < 2 ^ 32 -> 0 <= Fingerprint.crc_shift c < 2 ^ 32.
Proof.
  intros Hc. unfold Fingerprint.crc_shift.
  assert (0 <= Z.shiftr c 1 < 2 ^ 32).
  { rewrite Z.shiftr_div_pow2 by lia. change (2 ^ 1) with 2.
    split; [apply Z.div_pos; lia|].
    apply Z.div_lt_upper_bound; lia. }
  destruct (Z.testbit c 0); [|done].
  apply lxor_32; [done|lia].
Qed.

Lemma crc_byte_32 (c : Z) (b : byte) :
  0 <= c < 2 ^ 32 -> 0 <= Fingerprint.crc_byte c b < 2 ^ 32.
Proof.
  intros Hc. unfold Fingerprint.crc_byte.
  do 8 apply crc_shift_32. apply lxor_32; [done|].
  pose proof (Byte.to_N_bounded b). lia.
Qed.

Lemma crc32_32 (data : list byte) (value : Z) :
  0 <= value < 2 ^ 32 -> 0 <= Fingerprint.crc32 data value < 2 ^ 32.
Proof.
  intros Hv. unfold Fingerprint.crc32.
  apply lxor_32; [|lia].
  assert (0 <= Z.lxor value 4294967295 < 2 ^ 32) as Hstart
    by (apply lxor_32; lia).
  revert Hstart. generalize (Z.lxor value 4294967295).
  induction data as [|b data IH]; intros c Hc; simpl; [done|].
  apply IH. by apply crc_byte_32.
Qed.

(** X1.  The fingerprint of a readable file is the zero-padded
    hexadecimal form of the CRC-32 of its whole content: reading in
    chunks of 8192 bytes and masking with [0xFFFFFFFF] change nothing. *)
Theorem fingerprint_is_crc32_of_content (os : OS) (filepath : string)
    (st : FileStat) (content : list byte) :
  fs os filepath = Some st ->
  st_data st = Some content ->
  calculate_crc32_checksum os filepath
  = PyStr (Fingerprint.format_08x (Fingerprint.crc32 content 0)).
Proof.
  intros Hfs Hdata. unfold calculate_crc32_checksum. rewrite Hfs, Hdata.
  rewrite FingerprintFacts.checksum_of_bytes_crc32.
  change 4294967295 with (Z.ones 32).
  rewrite Z.land_ones by lia.
  rewrite Z.mod_small; [done|]. apply crc32_32. lia.
Qed.

Lemma fingerprint_is_crc32_of_content_witness :
  calculate_crc32_checksum Scenario.os_scan "/w/x.txt"
  = PyStr (Fingerprint.format_08x (Fingerprint.crc32 [x61; x62; x63] 0)).
Proof.
  exact (fingerprint_is_crc32_of_content Scenario.os_scan "/w/x.txt"
           (Demo.file Scenario.t0 Scenario.t0 [x61; x62; x63])
           [x61; x62; x63] eq_refl eq_refl).
Defined.

Lemma hex_digit_cases (d : Z) :
  0 <= d < 16 ->
  is_lower_hex (Fingerprint.hex_digit d) = true
  /\ hex_digit_value (Fingerprint.hex_digit d) = d.
Proof.
  intros Hd.
  assert (d = 0 \/ d = 1 \/ d = 2 \/ d = 3 \/ d = 4 \/ d = 5 \/ d = 6 \/ d = 7
          \/ d = 8 \/ d = 9 \/ d = 10 \/ d = 11 \/ d = 12 \/ d = 13 \/ d = 14
          \/ d = 15) as Hcases by lia.
  repeat (destruct Hcases as [->|Hcases]; [by vm_compute|]).
  subst d. by vm_compute.
Qed.

Lemma hex_of_length (k : nat) :
  forall (fuel : nat) (n : Z) (acc : string),
    (1 <= k)%nat -> 0 <= n < 16 ^ Z.of_nat k ->
    (String.length (Fingerprint.hex_of fuel n acc) <= k + String.length acc)%nat.
Proof.
  induction k as [|k IH]; intros fuel n acc Hk Hn; [lia|].
  destruct fuel as [|fuel]; simpl; [lia|].
  destruct (Z.ltb_spec n 16) as [Hsmall|Hbig]; simpl; [lia|].
  destruct k as [|k]; [simpl in Hn; lia|].
  etrans; [apply IH; [lia|]|simpl; lia].
  rewrite Nat2Z.inj_succ, Z.pow_succ_r in Hn by lia.
  split; [apply Z.div_pos; lia|].
  apply Z.div_lt_upper_bound; lia.
Qed.

Lemma hex_of_digits (fuel : nat) :
  forall (n : Z) (acc : string),
    string_forallb is_lower_hex acc = true ->
    string_forallb is_lower_hex (Fingerprint.hex_of fuel n acc) = true.
Proof.
  induction fuel as [|fuel IH]; intros n acc Hacc; simpl; [done|].
  assert (string_forallb is_lower_hex
            (String (Fingerprint.hex_digit (n mod 16)) acc) = true) as Hacc'.
  { simpl. rewrite Hacc, andb_true_r.
    apply hex_digit_cases, Z.mod_pos_bound. lia. }
  destruct (n <? 16); [done|]. by apply IH.
Qed.

Lemma hex_of_value (fuel : nat) :
  forall (n : Z) (acc : string),
    0 <= n < 16 ^ Z.of_nat fuel ->
    hex_value (Fingerprint.hex_of fuel n acc) = hex_value_from n acc.
Proof.
  unfold hex_value.
  induction fuel as [|fuel IH]; intros n acc Hn; simpl.
  - by replace n with 0 by (simpl in Hn; lia).
  - assert (hex_value_from 0 (String (Fingerprint.hex_digit (n mod 16)) acc)
            = hex_value_from (n mod 16) acc) as Hlast.
    { simpl. f_equal.
      rewrite (proj2 (hex_digit_cases (n mod 16)
                        (Z.mod_pos_bound n 16 ltac:(lia)))). lia. }
    destruct (Z.ltb_spec n 16) as [Hsmall|Hbig].
    + rewrite Hlast. by rewrite Z.mod_small by lia.
    + rewrite IH.
      * simpl. f_equal.
        rewrite (proj2 (hex_digit_cases (n mod 16)
                          (Z.mod_pos_bound n 16 ltac:(lia)))).
        pose proof (Z.div_mod n 16). lia.
      * rewrite Nat2Z.inj_succ, Z.pow_succ_r in Hn by lia.
        split; [apply Z.div_pos; lia|]. apply Z.div_lt_upper_bound; lia.
Qed.

Lemma zero_pad_facts (k : nat) (s : string) :
  String.length (Fingerprint.zero_pad k s) = (k + String.length s)%nat
  /\ (string_forallb is_lower_hex s = true ->
      string_forallb is_lower_hex (Fingerprint.zero_pad k s) = true)
  /\ hex_value (Fingerprint.zero_pad k s) = hex_value s.
Proof.
  induction k as [|k (Hl & Hd & Hv)]; simpl; [done|].
  split; [by rewrite Hl|]. split; [done|].
  unfold hex_value in *. simpl. exact Hv.
Qed.

Lemma hex_of_fuel_enough (n : Z) :
  0 <= n -> n < 16 ^ Z.of_nat (S (Z.to_nat (Z.log2 n))).
Proof.
  intros Hn. rewrite Nat2Z.inj_succ, Z2Nat.id by apply Z.log2_nonneg.
  destruct (decide (n = 0)) as [->|Hne]; [by vm_compute|].
  pose proof (Z.log2_spec n ltac:(lia)) as [_ Hup].
  eapply Z.lt_le_trans; [exact Hup|].
  pose proof (Z.log2_nonneg n).
  etrans; [|apply Z.pow_le_mono_l with (a := 2); lia]. done.
Qed.

(** X2.  The fingerprint of a readable file is a string of exactly
    eight characters, all of them in [0-9a-f], and read as a hexadecimal
    number it is the CRC-32 of the content: the string loses nothing of
    the checksum. *)
Theorem fingerprint_eight_hex_digits (os : OS) (filepath : string)
    (st : FileStat) (content : list byte) :
  fs os filepath = Some st ->
  st_data st = Some content ->
  exists digits,
    calculate_crc32_checksum os filepath = PyStr digits
    /\ String.length digits = 8%nat
    /\ string_forallb is_lower_hex digits = true
    /\ hex_value digits = Fingerprint.crc32 content 0.
Proof.
  intros Hfs Hdata. eexists. split.
  { unfold calculate_crc32_checksum. rewrite Hfs, Hdata.
    rewrite FingerprintFacts.checksum_of_bytes_crc32.
    change 4294967295 with (Z.ones 32).
    rewrite Z.land_ones, Z.mod_small by (lia || (apply crc32_32; lia)).
    reflexivity. }
  pose proof (crc32_32 content 0 ltac:(lia)) as Hrange.
  set (n := Fingerprint.crc32 content 0) in *.
  unfold Fingerprint.format_08x.
  set (digits := Fingerprint.hex_of _ n EmptyString).
  assert (String.length digits <= 8)%nat as Hlen.
  { pose proof (hex_of_length 8 (S (Z.to_nat (Z.log2 n))) n EmptyString
                  ltac:(lia)) as Hl.
    simpl String.length in Hl. rewrite Nat.add_0_r in Hl. apply Hl.
    change (16 ^ Z.of_nat 8) with (2 ^ 32). lia. }
  destruct (zero_pad_facts (8 - String.length digits) digits) as (Hl & Hd & Hv).
  split; [rewrite Hl; lia|].
  split; [apply Hd; by apply hex_of_digits|].
  rewrite Hv. subst digits. rewrite hex_of_value; [done|].
  split; [lia|]. apply hex_of_fuel_enough. lia.
Qed.

Lemma fingerprint_eight_hex_digits_witness :
  exists digits,
    calculate_crc32_checksum Scenario.os_scan "/w/x.txt" = PyStr digits
    /\ String.length digits = 8%nat.
Proof.
  destruct (fingerprint_eight_hex_digits Scenario.os_scan "/w/x.txt"
              (Demo.file Scenario.t0 Scenario.t0 [x61; x62; x63])
              [x61; x62; x63] eq_refl eq_refl) as (digits & Hck & Hlen & _).
  exists digits. split; [exact Hck|exact Hlen].
Defined.

(** X3.  The fingerprint is [None] exactly when the file is missing or
    cannot be opened; in every other case it is a true value, so the
    guards [if checksum:] of the scanner and the handlers skip a file
    only for those two reasons. *)
Theorem fingerprint_none_iff_unreadable (os : OS) (filepath : string) :
  (calculate_crc32_checksum os filepath = PyNone
   <-> fs os filepath = None
       \/ exists st, fs os filepath = Some st /\ st_data st = None)
  /\ (truthy (calculate_crc32_checksum os filepath) = false
      <-> calculate_crc32_checksum os filepath = PyNone).
Proof.
  unfold calculate_crc32_checksum.
  destruct (fs os filepath) as [st|] eqn:Hfs.
  - destruct (st_data st) as [content|] eqn:Hdata.
    + split; split; try discriminate.
      * intros [?|(st' & ? & ?)]; simplify_eq.
      * simpl. intros Hf. apply negb_false_iff, String.eqb_eq in Hf.
        by apply format_08x_nonempty in Hf.
    + split; split; try done. eauto.
  - split; split; try done. eauto.
Qed.

(** ** Steps and runs *)

Lemma dispatch_wrote (os : OS) (signal : Signal) (m : Monitor) :
  wrote (db m) (db (state_of (dispatch os signal m))).
Proof.
  destruct signal as [e|e|e|e]; simpl;
    [unfold on_created|unfold on_modified|unfold on_moved|unfold on_deleted];
    repeat case_match; simpl; try (by left); right; by repeat eexists.
Qed.

Lemma scan_file_wrote (os : OS) (a : Store * list pyval) (root file : string) :
  wrote (fst a) (fst (state_of (scan_file os a root file))).
Proof.
  destruct a as [s details]. unfold scan_file.
  repeat case_match; simpl; try (by left); right; by repeat eexists.
Qed.

Lemma scan_loop_wrote (os : OS) (entries : list (string * string)) :
  forall a, rtc wrote (fst a) (fst (state_of (scan_loop os a entries))).
Proof.
  induction entries as [|[root file] entries IH]; intros a; simpl; [done|].
  pose proof (scan_file_wrote os a root file) as Hstep.
  destruct (scan_file os a root file) as [a'|e a']; simpl in *.
  - eapply rtc_l; [exact Hstep|apply IH].
  - by apply rtc_once.
Qed.

Lemma scan_directory_wrote (os : OS) (s : Store) (directories : list string) :
  rtc wrote s (fst (scan_directory os s directories)).
Proof.
  unfold scan_directory.
  pose proof (scan_loop_wrote os (walked os directories) (s, [])) as Hrun.
  by destruct (state_of _).
Qed.

Lemma deliver_wrote (signals : list (OS * Signal)) :
  forall m, rtc wrote (db m) (db (deliver signals m)).
Proof.
  induction signals as [|[os signal] signals IH]; intros m; simpl; [done|].
  eapply rtc_l; [apply dispatch_wrote|apply IH].
Qed.

Lemma session_wrote (os0 : OS) (s : Store) (directories : list string)
    (signals : list (OS * Signal)) :
  rtc wrote s (db (session os0 s directories signals)).
Proof.
  unfold session, monitor_directories_startup.
  pose proof (scan_directory_wrote os0 s directories) as Hscan.
  destruct (scan_directory os0 s directories) as [s' details].
  etrans; [exact Hscan|]. apply (deliver_wrote signals {| db := s' |}).
Qed.

(** An invariant of single steps is an invariant of runs. *)
Lemma rtc_wrote_invariant (P : Store -> Prop) :
  (forall s s', P s -> wrote s s' -> P s') ->
  forall s s', rtc wrote s s' -> P s -> P s'.
Proof. intros Hstep s s' Hrun. induction Hrun; eauto. Qed.

Lemma wrote_clean (s s' : Store) : clean s -> wrote s s' -> clean s'.
Proof.
  intros Hc [->|(fn & fp & et & ct & mt & dt & ck & u & r & tm & ->)]; [done|].
  apply write_history_clean.
Qed.

Lemma wrote_append_only (s s' : Store) :
  clean s -> wrote s s' -> append_only s s'.
Proof.
  intros Hc [->|(fn & fp & et & ct & mt & dt & ck & u & r & tm & ->)];
    [done|].
  unfold clean in Hc.
  unfold append_only, write_history, insert_event, execute_insert_Events,
    insert_file, execute_insert_Files.
  repeat (case_match; simpl in * ); simplify_eq; simpl; rewrite ?Hc;
    split; try done; try apply prefix_app_r; try done;
    by apply prefix_app_r.
Qed.

Lemma append_only_trans (a b c : Store) :
  append_only a b -> append_only b c -> append_only a c.
Proof. intros [? ?] [? ?]. split; by etrans. Qed.

Lemma rtc_wrote_append_only (s s' : Store) :
  rtc wrote s s' -> clean s -> append_only s s' /\ clean s'.
Proof.
  induction 1 as [s|s1 s2 s3 Hstep _ IH]; intros Hc; [done|].
  destruct (IH (wrote_clean _ _ Hc Hstep)) as [Happ Hc3].
  split; [|done].
  eapply append_only_trans; [by apply wrote_append_only|done].
Qed.

(** X4.  The history is append-only.  On a connection with nothing
    pending, whatever the scan and the handlers of a session do, with or
    without storage failures, the committed [Files] and [Events] tables
    after the session begin with the tables as they were before: no row
    is ever changed or removed. *)
Theorem session_history_append_only (os0 : OS) (s : Store)
    (directories : list string) (signals : list (OS * Signal)) :
  clean s ->
  let s' := db (session os0 s directories signals) in
  Files (committed s) `prefix_of` Files (committed s')
  /\ Events (committed s) `prefix_of` Events (committed s')
  /\ clean s'.
Proof.
  intros Hc s'.
  destruct (rtc_wrote_append_only s s' (session_wrote _ _ _ _) Hc)
    as [[Hf He] Hc'].
  done.
Qed.

Lemma session_history_append_only_witness :
  Files (committed (db Scenario.scanned))
    `prefix_of`
  Files (committed (db (session Scenario.os_scan (db Scenario.scanned)
                          ["/w"%string]
                          [(Scenario.os_edit,
                            Modified (Demo.file_event "/w/x.txt"));
                           (Scenario.os_gone,
                            Deleted (Demo.file_event "/w/x.txt"))]))).
Proof.
  refine (proj1 (session_history_append_only Scenario.os_scan
                   (db Scenario.scanned) ["/w"%string]
                   [(Scenario.os_edit, Modified (Demo.file_event "/w/x.txt"));
                    (Scenario.os_gone, Deleted (Demo.file_event "/w/x.txt"))]
                   _)).
  vm_compute. reflexivity.
Defined.

Lemma wrote_invariant (s s' : Store) :
  store_invariant s -> wrote s s' -> store_invariant s'.
Proof.
  intros Hinv [->|(fn & fp & et & ct & mt & dt & ck & u & r & tm & ->)];
    [done|].
  by apply write_history_invariant.
Qed.

Lemma StronglySorted_lt_NoDup (ids : list Z) :
  StronglySorted Z.lt ids -> NoDup ids.
Proof.
  induction 1 as [|id ids _ IH Hall]; constructor; [|done].
  intros Hin. rewrite Forall_forall in Hall. specialize (Hall id Hin). lia.
Qed.




Lemma wrote_paired (s s' : Store) :
  storage_sound s /\ clean s /\ paired (committed s) ->
  wrote s s' ->
  storage_sound s' /\ clean s' /\ paired (committed s').
Proof.
  intros (Hs & Hc & Hp)
    [->|(fn & fp & et & ct & mt & dt & ck & u & r & tm & ->)]; [done|].
  split; [by apply write_history_sound|].
  split; [apply write_history_clean|].
  rewrite write_history_ok by done. simpl.
  unfold paired, clean in *. simpl. rewrite <- Hc.
  apply Forall2_app; [done|].
  constructor; [simpl; by rewrite Hc|constructor].
Qed.

(** X6.  As long as the storage layer refuses nothing, files and events
    stay paired.  If before a session the i-th event carries the key of
    the i-th [Files] row for every i (as in the empty database), the same
    holds after the session: both tables have the same number of rows
    and every event refers to a stored [Files] row. *)
Theorem session_keeps_files_and_events_paired (os0 : OS) (s : Store)
    (directories : list string) (signals : list (OS * Signal)) :
  storage_sound s ->
  clean s ->
  paired (committed s) ->
  let t' := committed (db (session os0 s directories signals)) in
  paired t'
  /\ length (Files t') = length (Events t')
  /\ Forall (fun e => exists r, r ∈ Files t' /\ ev_file_id e = PyInt (file_id r))
       (Events t').
Proof.
  intros Hs Hc Hp t'.
  assert (paired t') as Hp'.
  { eapply (rtc_wrote_invariant
              (fun s => storage_sound s /\ clean s /\ paired (committed s)));
      [apply wrote_paired|apply session_wrote|done]. }
  split; [done|]. split; [by eapply Forall2_length|].
  unfold paired in Hp'. clear -Hp'.
  induction Hp' as [|r e rows evs Hre _ IH]; constructor.
  - exists r. split; [left|done].
  - eapply Forall_impl; [exact IH|]. intros e' (r' & Hin & Hid).
    exists r'. split; [by right|done].
Qed.

Lemma session_keeps_files_and_events_paired_witness :
  paired (committed
            (db (session Scenario.os_scan Demo.fresh_store ["/w"%string]
                   [(Scenario.os_edit, Modified (Demo.file_event "/w/x.txt"))]))).
Proof.
  refine (proj1 (session_keeps_files_and_events_paired Scenario.os_scan
                   Demo.fresh_store ["/w"%string]
                   [(Scenario.os_edit, Modified (Demo.file_event "/w/x.txt"))]
                   (Forall_nil_2 _) eq_refl _)).
  vm_compute. constructor.
Defined.

Lemma fetchone_filter_prefix (P : FilesRow -> Prop)
    `{!forall r, Decision (P r)} (l l' : list FilesRow) (r : FilesRow) :
  l `prefix_of` l' ->
  fetchone (filter P l) = Some r -> fetchone (filter P l') = Some r.
Proof.
  intros [k ->] Hhead. unfold fetchone in *.
  rewrite filter_app, head_app. by rewrite Hhead.
Qed.

(** X7.  The reference record of a path never changes.  Once a lookup
    by full path (or by file name) returns a record, it returns that
    same record after any further signals of the session, however many
    newer records for the path (or name) they add: every later modify,
    rename and delete carries forward from it. *)
Theorem reference_record_is_permanent (signals : list (OS * Signal))
    (m : Monitor) (key : string) (r : FilesRow) :
  clean (db m) ->
  (fetchone (select_Files_where_file_path (db m) key) = Some r ->
   fetchone (select_Files_where_file_path (db (deliver signals m)) key) = Some r)
  /\ (fetchone (select_Files_where_filename (db m) key) = Some r ->
      fetchone (select_Files_where_filename (db (deliver signals m)) key)
      = Some r).
Proof.
  intros Hc.
  destruct (rtc_wrote_append_only _ _ (deliver_wrote signals m) Hc)
    as [[Hpre _] Hc'].
  unfold clean in *. rewrite Hc, Hc' in Hpre.
  split; apply fetchone_filter_prefix; done.
Qed.

Lemma reference_record_is_permanent_witness :
  fetchone (select_Files_where_file_path
              (db (deliver [(Scenario.os_edit,
                             Modified (Demo.file_event "/w/x.txt"));
                            (Scenario.os_gone,
                             Deleted (Demo.file_event "/w/x.txt"))]
                     Scenario.scanned))
              "/w/x.txt")
  = Some Scenario.row1.
Proof.
  refine (proj1 (reference_record_is_permanent
                   [(Scenario.os_edit, Modified (Demo.file_event "/w/x.txt"));
                    (Scenario.os_gone, Deleted (Demo.file_event "/w/x.txt"))]
                   Scenario.scanned "/w/x.txt" Scenario.row1 _) _).
  - vm_compute. reflexivity.
  - vm_compute. reflexivity.
Defined.

(** ** The view [FilesView] *)

Lemma filter_none (A : Type) (P : A -> Prop) `{!forall x, Decision (P x)}
    (l : list A) :
  (forall x, x ∈ l -> ~ P x) -> filter P l = [].
Proof.
  induction l as [|x l IH]; intros Hno; [done|].
  rewrite filter_cons. destruct (decide (P x)) as [HP|_].
  - destruct (Hno x); [left|done].
  - apply IH. intros y Hy. apply Hno. by right.
Qed.

Lemma length_flat_map_ones (A B : Type) (g : A -> list B) (l : list A) :
  (forall x, x ∈ l -> length (g x) = 1%nat) ->
  length (flat_map g l) = length l.
Proof.
  induction l as [|x l IH]; intros Hone; simpl; [done|].
  rewrite length_app, Hone by left. rewrite IH; [done|].
  intros y Hy. apply Hone. by right.
Qed.

Lemma length_flat_map_least (A B : Type) (g : A -> list B) (l : list A) :
  (forall x, x ∈ l -> (1 <= length (g x))%nat) ->
  (length l <= length (flat_map g l))%nat.
Proof.
  induction l as [|x l IH]; intros Hone; simpl; [done|].
  rewrite length_app. pose proof (Hone x ltac:(left)).
  assert (length l <= length (flat_map g l))%nat; [|lia].
  apply IH. intros y Hy. apply Hone. by right.
Qed.

Lemma view_rows_of_cases (t : Tables) (f : FilesRow) :
  (filter (fun e => Is_true (joins f e)) (Events t) = []
   /\ view_rows_of t f = [view_row f PyNone PyNone])
  \/ (filter (fun e => Is_true (joins f e)) (Events t) <> []
      /\ view_rows_of t f
         = map (fun e => view_row f (event_type e) (event_time e))
             (filter (fun e => Is_true (joins f e)) (Events t))).
Proof.
  unfold view_rows_of.
  destruct (filter _ (Events t)) as [|e es]; [by left|by right].
Qed.

(** X8.  [FilesView] is a left join: every [Files] row is shown at
    least once, with its own columns, and a row that no event refers to
    (its [Events] insert was refused) is shown once with null event
    columns; every row of the view comes from a [Files] row, so an event
    that refers to no stored file is never shown. *)
Theorem FilesView_shows_every_file (t : Tables) :
  (forall f, f ∈ Files t ->
     exists v, v ∈ FilesView t /\ v ∈ view_rows_of t f
               /\ v_file_id v = file_id f /\ v_file_path v = file_path f
               /\ v_hash_value v = hash_value f)
  /\ (forall f, (forall e, e ∈ Events t -> ev_file_id e <> PyInt (file_id f)) ->
                view_rows_of t f = [view_row f PyNone PyNone])
  /\ (forall v, v ∈ FilesView t ->
        exists f, f ∈ Files t /\ v_file_id v = file_id f)
  /\ (length (Files t) <= length (FilesView t))%nat.
Proof.
  assert (forall f v, v ∈ view_rows_of t f -> v_file_id v = file_id f
            /\ v_file_path v = file_path f /\ v_hash_value v = hash_value f)
    as Hcols.
  { intros f v Hv.
    destruct (view_rows_of_cases t f) as [[_ Heq]|[_ Heq]]; rewrite Heq in Hv.
    - apply list_elem_of_singleton in Hv as ->. done.
    - apply list_elem_of_In, in_map_iff in Hv as (e & <- & _). done. }
  assert (forall f, (1 <= length (view_rows_of t f))%nat) as Hsome.
  { intros f.
    destruct (view_rows_of_cases t f) as [[_ Heq]|[Hne Heq]]; rewrite Heq.
    - simpl. lia.
    - rewrite length_map. destruct (filter _ (Events t)); [done|simpl; lia]. }
  split; [|split; [|split]].
  - intros f Hf. specialize (Hsome f).
    destruct (view_rows_of t f) as [|v vs] eqn:Hrows; [simpl in Hsome; lia|].
    exists v. split.
    + apply list_elem_of_In, in_flat_map. exists f.
      split; [by apply list_elem_of_In|]. rewrite Hrows. by left.
    + split; [left|]. apply Hcols. rewrite Hrows. left.
  - intros f Hnone. unfold view_rows_of. rewrite filter_none; [done|].
    intros e He Hj. apply (Hnone e He). unfold joins in Hj.
    destruct (ev_file_id e) as [|id| | |]; try done.
    apply Is_true_true, Z.eqb_eq in Hj. by subst.
  - intros v Hv. apply list_elem_of_In, in_flat_map in Hv as (f & Hf & Hv).
    exists f. split; [by apply list_elem_of_In|].
    by apply Hcols, list_elem_of_In.
  - apply length_flat_map_least. intros f _. apply Hsome.
Qed.

Lemma filter_joins_own (fs : list FilesRow) (es : list EventsRow) :
  Forall2 (fun r e => ev_file_id e = PyInt (file_id r)) fs es ->
  NoDup (map file_id fs) ->
  forall i f e, fs !! i = Some f -> es !! i = Some e ->
    filter (fun e' => Is_true (joins f e')) es = [e].
Proof.
  induction 1 as [|f0 e0 fs es Hid Hrest IH]; intros Hnd i f e Hf He;
    [done|].
  simpl in Hnd. apply NoDup_cons in Hnd as [Hfresh Hnd].
  rewrite filter_cons. destruct i as [|i]; simpl in Hf, He; simplify_eq.
  - rewrite decide_True
      by (unfold joins; rewrite Hid; apply Is_true_true, Z.eqb_refl).
    f_equal. apply filter_none. intros e' He' Hj.
    apply list_elem_of_lookup_1 in He' as [j He'].
    destruct (Forall2_lookup_r _ _ _ _ _ Hrest He') as (f' & Hf' & Hid').
    unfold joins in Hj. rewrite Hid' in Hj.
    apply Is_true_true, Z.eqb_eq in Hj. apply Hfresh. rewrite <- Hj.
    apply list_elem_of_In, in_map, list_elem_of_In.
    by eapply list_elem_of_lookup_2.
  - rewrite decide_False; [by eapply IH|].
    unfold joins. rewrite Hid. intros Hj.
    apply Is_true_true, Z.eqb_eq in Hj. apply Hfresh. rewrite Hj.
    apply list_elem_of_In, in_map, list_elem_of_In.
    by eapply list_elem_of_lookup_2.
Qed.

(** X9.  On a storage layer that refuses nothing the dashboard view
    shows every record exactly once.  From a store in which files and
    events are paired and in rowid order, after any session [FilesView]
    over the committed tables has as many rows as [Files], and the only
    row shown for the i-th [Files] row carries the type and time of the
    i-th event. *)
Theorem FilesView_one_row_per_record (os0 : OS) (s : Store)
    (directories : list string) (signals : list (OS * Signal)) :
  storage_sound s ->
  store_invariant s ->
  paired (committed s) ->
  let t' := committed (db (session os0 s directories signals)) in
  length (FilesView t') = length (Files t')
  /\ forall i f e, Files t' !! i = Some f -> Events t' !! i = Some e ->
       view_rows_of t' f = [view_row f (event_type e) (event_time e)].
Proof.
  intros Hs Hinv Hp t'.
  assert (paired t') as Hp'.
  { eapply (rtc_wrote_invariant
              (fun s => storage_sound s /\ clean s /\ paired (committed s)));
      [apply wrote_paired|apply session_wrote|].
    split; [done|]. split; [apply Hinv|done]. }
  assert (NoDup (map file_id (Files t'))) as Hnd.
  { apply StronglySorted_lt_NoDup.
    eapply (rtc_wrote_invariant store_invariant);
      [apply wrote_invariant|apply session_wrote|done]. }
  assert (forall i f e, Files t' !! i = Some f -> Events t' !! i = Some e ->
            view_rows_of t' f = [view_row f (event_type e) (event_time e)])
    as Hone.
  { intros i f e Hf He. unfold view_rows_of.
    by rewrite (filter_joins_own _ _ Hp' Hnd i f e Hf He). }
  split; [|done].
  apply length_flat_map_ones. intros f Hf.
  apply list_elem_of_lookup_1 in Hf as [i Hf].
  destruct (Forall2_lookup_l _ _ _ _ _ Hp' Hf) as (e & He & _).
  by rewrite (Hone i f e Hf He).
Qed.

Lemma FilesView_one_row_per_record_witness :
  length (FilesView (committed
            (db (session Scenario.os_scan Demo.fresh_store ["/w"%string]
                   [(Scenario.os_edit, Modified (Demo.file_event "/w/x.txt"))]))))
  = length (Files (committed
            (db (session Scenario.os_scan Demo.fresh_store ["/w"%string]
                   [(Scenario.os_edit, Modified (Demo.file_event "/w/x.txt"))])))).
Proof.
  refine (proj1 (FilesView_one_row_per_record Scenario.os_scan
                   Demo.fresh_store ["/w"%string]
                   [(Scenario.os_edit, Modified (Demo.file_event "/w/x.txt"))]
                   (Forall_nil_2 _) fresh_store_invariant _)).
  vm_compute. constructor.
Defined.

(** ** The dedup set over a session *)

Lemma dispatch_processed_grows (os : OS) (signal : Signal) (m : Monitor) :
  processed_files m ⊆ processed_files (state_of (dispatch os signal m)).
Proof.
  destruct signal as [e|e|e|e]; simpl;
    [unfold on_created|unfold on_modified|unfold on_moved|unfold on_deleted];
    repeat case_match; simpl; set_solver.
Qed.

Lemma deliver_processed_grows (signals : list (OS * Signal)) :
  forall m, processed_files m ⊆ processed_files (deliver signals m).
Proof.
  induction signals as [|[os signal] signals IH]; intros m; simpl; [done|].
  etrans; [apply dispatch_processed_grows|apply IH].
Qed.

(** X10.  A path is recorded as created at most once per session.
    After a [Created] signal for a file, no signal of the session takes
    the path out of [processed_files] again: whatever happens in
    between, a deletion of the file included, every later [Created]
    signal for the same path is discarded and writes nothing. *)
Theorem path_created_once_per_session (os os' : OS) (e e' : FsEvent)
    (signals : list (OS * Signal)) (m : Monitor) :
  is_directory e = false ->
  src_path e' = src_path e ->
  let m1 := state_of (on_created os e m) in
  let m2 := deliver signals m1 in
  processed_files m1 ⊆ processed_files m2
  /\ on_created os' e' m2 = Returns m2.
Proof.
  intros Hdir Hsame m1 m2.
  pose proof (deliver_processed_grows signals m1) as Hgrow.
  split; [done|].
  apply on_created_discards. rewrite Hsame.
  apply Hgrow. by apply on_created_marks.
Qed.

Lemma path_created_once_per_session_witness :
  let m2 := deliver [(Scenario.os_gone, Deleted (Demo.file_event "/w/y.txt"))]
              (state_of (on_created Scenario.os_move
                           (Demo.file_event "/w/y.txt") Scenario.scanned)) in
  on_created Scenario.os_move (Demo.file_event "/w/y.txt") m2 = Returns m2.
Proof.
  exact (proj2 (path_created_once_per_session Scenario.os_move Scenario.os_move
                  (Demo.file_event "/w/y.txt") (Demo.file_event "/w/y.txt")
                  [(Scenario.os_gone, Deleted (Demo.file_event "/w/y.txt"))]
                  Scenario.scanned eq_refl eq_refl)).
Defined.

(** X11.  A [Created] signal that cannot be recorded still uses up the
    path.  For a path not seen before: when the file is already gone,
    the handler ends with the [FileNotFoundError] of [os.path.getctime];
    when the file cannot be opened, it returns; in both cases the store
    is untouched and the path is in [processed_files], so a later
    [Created] signal for it is discarded even if the file can be read by
    then. *)
Theorem unrecorded_creation_marks_path (os os' : OS) (e e' : FsEvent)
    (m : Monitor) :
  is_directory e = false ->
  src_path e ∉ processed_files m ->
  calculate_crc32_checksum os (src_path e) = PyNone ->
  src_path e' = src_path e ->
  let m1 := {| db := db m;
               processed_files := processed_files m ∪ {[src_path e]} |} in
  (fs os (src_path e) = None ->
     on_created os e m = Raises "FileNotFoundError" m1)
  /\ (fs os (src_path e) <> None -> on_created os e m = Returns m1)
  /\ on_created os' e' m1 = Returns m1.
Proof.
  intros Hdir Hnew Hck Hsame m1.
  split; [|split].
  - intros Hfs. unfold on_created.
    by rewrite Hdir, bool_decide_eq_false_2, Hfs.
  - intros Hfs. unfold on_created.
    rewrite Hdir, bool_decide_eq_false_2 by done.
    destruct (fs os (src_path e)); [|done]. by rewrite Hck.
  - apply on_created_discards. rewrite Hsame. subst m1. simpl. set_solver.
Qed.

Lemma unrecorded_creation_marks_path_witness :
  on_created Scenario.os_gone (Demo.file_event "/w/y.txt") Demo.fresh_monitor
  = Raises "FileNotFoundError"
      {| db := Demo.fresh_store;
         processed_files := ∅ ∪ {["/w/y.txt"%string]} |}.
Proof.
  refine (proj1 (unrecorded_creation_marks_path Scenario.os_gone
                   Scenario.os_move (Demo.file_event "/w/y.txt")
                   (Demo.file_event "/w/y.txt") Demo.fresh_monitor
                   eq_refl _ eq_refl eq_refl) eq_refl).
  vm_compute. set_solver.
Defined.

(** ** Signals that leave no trace *)

(** X12.  A rename is recorded only if the destination can be
    fingerprinted and some record has the old file name: when the file
    at the destination is missing or unreadable, or when no stored
    record is named like the source, the handler returns the watcher
    state unchanged, even if the old path itself is tracked. *)
Theorem rename_dropped (os : OS) (e : FsEvent) (m : Monitor) :
  calculate_crc32_checksum os (dest_path e) = PyNone
  \/ fetchone (select_Files_where_filename (db m) (basename os (src_path e)))
     = None ->
  on_moved os e m = Returns m.
Proof.
  intros Hwhy. unfold on_moved. destruct (is_directory e); [done|].
  destruct (truthy (calculate_crc32_checksum os (dest_path e))) eqn:Hck;
    [|done].
  destruct (checksum_truthy_getmtime _ _ Hck) as (st & _ & ->).
  destruct Hwhy as [Hnone|Hmiss]; [by rewrite Hnone in Hck|].
  by rewrite Hmiss.
Qed.

Lemma rename_dropped_witness :
  on_moved Scenario.os_gone (Demo.move_event "/w/x.txt" "/w/y.txt")
    Scenario.scanned = Returns Scenario.scanned.
Proof.
  apply (rename_dropped Scenario.os_gone
           (Demo.move_event "/w/x.txt" "/w/y.txt") Scenario.scanned).
  left. reflexivity.
Defined.

(** X13.  A [Modified] signal for a file that is missing or unreadable
    by the time the handler runs is dropped, tracked or not; a [Deleted]
    signal needs no fingerprint and is dropped when no record has its
    path: for an untracked path it writes no row at all. *)
Theorem modify_and_delete_dropped (os : OS) (e : FsEvent) (m : Monitor) :
  (calculate_crc32_checksum os (src_path e) = PyNone ->
   on_modified os e m = Returns m)
  /\ (fetchone (select_Files_where_file_path (db m) (src_path e)) = None ->
      on_deleted os e m = Returns m).
Proof.
  split.
  - intros Hnone. unfold on_modified. destruct (is_directory e); [done|].
    by rewrite Hnone.
  - intros Hmiss. unfold on_deleted. destruct (is_directory e); [done|].
    by rewrite Hmiss.
Qed.

(** ** A modification of a tracked file *)

(** X14.  Every [Modified] signal for a readable, tracked file adds a
    record, whether or not the content changed: the new row takes the
    creation time of the record the lookup returned, the modification
    time and the fingerprint of the file as it is now, and the current
    user and role; the stored hash is never compared with the new one.
    The paired event is "Modified" at the modification time. *)
Theorem modified_appends_record (os : OS) (e : FsEvent) (m : Monitor)
    (result : FilesRow) (st : FileStat) (content : list byte) :
  is_directory e = false ->
  fs os (src_path e) = Some st ->
  st_data st = Some content ->
  fetchone (select_Files_where_file_path (db m) (src_path e)) = Some result ->
  storage_sound (db m) ->
  let row :=
    {| file_id := next_rowid (seq_Files (working (db m)))
                    (map file_id (Files (working (db m))));
       filename := PyStr (basename os (src_path e));
       file_path := PyStr (src_path e);
       creation_time := creation_time result;
       modification_time := PyStr (st_mtime st);
       deletion_time := PyStr "NULL";
       hash_value := calculate_crc32_checksum os (src_path e);
       user := PyStr (getuser os);
       role := PyStr (current_role os) |} in
  let ev :=
    {| event_id := next_rowid (seq_Events (working (db m)))
                     (map event_id (Events (working (db m))));
       event_type := PyStr "Modified";
       event_time := PyStr (st_mtime st);
       ev_file_id := PyInt (file_id row) |} in
  exists m',
    on_modified os e m = Returns m'
    /\ processed_files m' = processed_files m
    /\ Files (committed (db m')) = Files (working (db m)) ++ [row]
    /\ Events (committed (db m')) = Events (working (db m)) ++ [ev].
Proof.
  intros Hdir Hfs Hdata Hfetch Hsound row ev.
  unfold on_modified. cbv zeta. rewrite Hdir.
  rewrite (checksum_readable _ _ _ _ Hfs Hdata).
  unfold getmtime. rewrite Hfs, Hfetch.
  eexists. split; [reflexivity|]. split; [done|].
  simpl. rewrite write_history_ok by done. simpl. done.
Qed.

Lemma modified_appends_record_witness :
  exists m',
    on_modified Scenario.os_scan (Demo.file_event "/w/x.txt") Scenario.scanned
    = Returns m'
    /\ exists row, last (Files (committed (db m'))) = Some row
                   /\ hash_value row = hash_value Scenario.row1.
Proof.
  destruct (modified_appends_record Scenario.os_scan
              (Demo.file_event "/w/x.txt") Scenario.scanned Scenario.row1
              (Demo.file Scenario.t0 Scenario.t0 [x61; x62; x63])
              [x61; x62; x63]
              eq_refl eq_refl eq_refl eq_refl (Forall_nil_2 _))
    as (m' & Hrun & _ & Hfiles & _).
  exists m'. split; [exact Hrun|].
  eexists. split; [rewrite Hfiles; apply last_snoc|]. vm_compute. reflexivity.
Defined.

(** ** The scan: vanished and unreadable files *)

Lemma scan_loop_app (os : OS) (l1 l2 : list (string * string)) :
  forall a,
    scan_loop os a (l1 ++ l2)
    = match scan_loop os a l1 with
      | Returns a' => scan_loop os a' l2
      | Raises e a' => Raises e a'
      end.
Proof.
  induction l1 as [|[root file] l1 IH]; intros a; simpl; [done|].
  destruct (scan_file os a root file) as [a'|e a']; [apply IH|done].
Qed.

(** X15.  A file that vanishes between the directory listing and the
    scan ends the whole scan.  If the files to visit are [pre], then a
    file that is gone, then [post], the scan returns what it had
    collected after [pre]: nothing of [post] is visited or recorded,
    readable or not. *)
Theorem scan_stops_at_vanished_file (os : OS) (s : Store)
    (directories : list string) (pre post : list (string * string))
    (root file : string) :
  walked os directories = pre ++ (root, file) :: post ->
  fs os (path_join os root file) = None ->
  scan_directory os s directories
  = (let '(s', file_details) := state_of (scan_loop os (s, []) pre) in
     (s', PyList file_details)).
Proof.
  intros Hwalk Hgone. unfold scan_directory. rewrite Hwalk, scan_loop_app.
  destruct (scan_loop os (s, []) pre) as [[s' details]|err [s' details]];
    [|done].
  simpl. unfold scan_file. by rewrite Hgone.
Qed.

(** X16.  A file that exists but cannot be opened is skipped and the
    scan goes on: the result is the one of a scan that never listed the
    file. *)
Theorem scan_skips_unreadable_file (os : OS) (s : Store)
    (directories : list string) (pre post : list (string * string))
    (root file : string) (st : FileStat) :
  walked os directories = pre ++ (root, file) :: post ->
  fs os (path_join os root file) = Some st ->
  st_data st = None ->
  scan_directory os s directories
  = (let '(s', file_details) := state_of (scan_loop os (s, []) (pre ++ post)) in
     (s', PyList file_details)).
Proof.
  intros Hwalk Hfs Hdata. unfold scan_directory.
  rewrite Hwalk, !scan_loop_app.
  destruct (scan_loop os (s, []) pre) as [[s' details]|err [s' details]];
    [|done].
  simpl. unfold scan_file, calculate_crc32_checksum.
  by rewrite Hfs, Hdata.
Qed.

Lemma scan_stops_at_vanished_file_witness :
  scan_directory Races.os_vanished Demo.fresh_store ["/w"%string]
  = (Demo.fresh_store, PyList []).
Proof.
  exact (scan_stops_at_vanished_file Races.os_vanished Demo.fresh_store
           ["/w"%string] [] [("/w"%string, "x.txt"%string)] "/w" "gone.txt"
           eq_refl eq_refl).
Defined.

Lemma scan_skips_unreadable_file_witness :
  scan_directory Races.os_locked Demo.fresh_store ["/w"%string]
  = (let '(s', file_details) :=
       state_of (scan_loop Races.os_locked (Demo.fresh_store, [])
                   ([] ++ [("/w"%string, "x.txt"%string)])) in
     (s', PyList file_details)).
Proof.
  exact (scan_skips_unreadable_file Races.os_locked Demo.fresh_store
           ["/w"%string] [] [("/w"%string, "x.txt"%string)] "/w" "locked.txt"
           Races.locked eq_refl eq_refl eq_refl).
Defined.

(** ** What the scan returns *)

Lemma scan_loop_same_details (os : OS) (entries : list (string * string)) :
  forall (s1 s2 : Store) (details : list pyval),
    same_details (scan_loop os (s1, details) entries)
                 (scan_loop os (s2, details) entries).
Proof.
  induction entries as [|[root file] entries IH]; intros s1 s2 details;
    simpl; [done|].
  destruct (fs os (path_join os root file)); [|done].
  destruct (truthy _); apply IH.
Qed.

(** X17.  The list [scan_directory] returns depends on the file system
    only, not on the store: a file is listed as soon as its fingerprint
    succeeded, before and regardless of whether its two inserts went
    through, so a scan on a failing database returns the same list as a
    scan on a sound one. *)
Theorem scan_result_ignores_store (os : OS) (s1 s2 : Store)
    (directories : list string) :
  snd (scan_directory os s1 directories)
  = snd (scan_directory os s2 directories).
Proof.
  unfold scan_directory.
  pose proof (scan_loop_same_details os (walked os directories) s1 s2 [])
    as Hsame.
  destruct (scan_loop os (s1, []) _) as [[? ?]|? [? ?]],
           (scan_loop os (s2, []) _) as [[? ?]|? [? ?]];
    simpl in *; try done; [by subst|by destruct Hsame as [_ ->]].
Qed.

Lemma scan_loop_describes (os : OS) (entries : list (string * string)) :
  forall (s : Store) (details : list pyval),
    storage_sound s ->
    exists s' details' rows,
      state_of (scan_loop os (s, details) entries) = (s', details ++ details')
      /\ storage_sound s'
      /\ Files (working s') = Files (working s) ++ rows
      /\ Forall2 detail_of_row rows details'.
Proof.
  induction entries as [|[root file] entries IH]; intros s details Hs; simpl.
  { exists s, [], []. rewrite !app_nil_r. repeat split; try done; constructor. }
  destruct (fs os (path_join os root file)) as [st|] eqn:Hfs.
  2:{ exists s, [], []. rewrite !app_nil_r.
      repeat split; try done; constructor. }
  destruct (truthy _) eqn:Hck; [|by apply IH].
  edestruct (IH (write_history s (PyStr file) (PyStr (path_join os root file))
                   (PyStr (st_ctime st)) (PyStr (st_mtime st)) NULL
                   (calculate_crc32_checksum os (path_join os root file))
                   (PyStr (getuser os)) (PyStr (current_role os))
                   (PyStr "Scanned in directory") (PyStr (st_ctime st))))
    as (s' & details' & rows & Hrun & Hs' & Hfiles & Hrows);
    [by apply write_history_sound|].
  rewrite Hrun. rewrite write_history_ok in Hfiles by done. simpl in Hfiles.
  eexists s', (_ :: details'), (_ :: rows).
  split; [by rewrite <- app_assoc|]. split; [done|].
  split; [by rewrite Hfiles, <- app_assoc|].
  constructor; [|done]. unfold detail_of_row. by repeat eexists.
Qed.

(** X18.  On a storage layer that refuses nothing, the returned list
    describes exactly the rows the scan wrote, in order: the i-th
    dictionary holds the file name, path, creation time, modification
    time and checksum of the i-th [Files] row the scan added. *)
Theorem scan_result_describes_rows (os : OS) (s : Store)
    (directories : list string) :
  storage_sound s ->
  exists details rows,
    snd (scan_directory os s directories) = PyList details
    /\ Files (working (fst (scan_directory os s directories)))
       = Files (working s) ++ rows
    /\ Forall2 detail_of_row rows details.
Proof.
  intros Hs. unfold scan_directory.
  destruct (scan_loop_describes os (walked os directories) s [] Hs)
    as (s' & details & rows & Hrun & _ & Hfiles & Hrows).
  rewrite Hrun. simpl. by exists details, rows.
Qed.

Lemma scan_result_describes_rows_witness :
  exists details rows,
    snd (scan_directory Scenario.os_scan Demo.fresh_store ["/w"%string])
    = PyList details
    /\ Forall2 detail_of_row rows details.
Proof.
  destruct (scan_result_describes_rows Scenario.os_scan Demo.fresh_store
              ["/w"%string] (Forall_nil_2 _))
    as (details & rows & Hret & _ & Hrows).
  exists details, rows. split; [exact Hret|exact Hrows].
Defined.

(** X19.  The scan never looks at what is already stored.  Scanning
    the same directories twice in an unchanged world, as at every
    restart of the monitor, returns the same list both times, whatever
    the store does.  On a storage layer that refuses nothing it also
    writes every file again: the second scan appends rows that repeat,
    file by file, the name, path, times and checksum of the rows of the
    first. *)
Theorem rescan_records_every_file_again (os : OS) (s : Store)
    (directories : list string) :
  let s1 := fst (scan_directory os s directories) in
  let s2 := fst (scan_directory os s1 directories) in
  snd (scan_directory os s1 directories) = snd (scan_directory os s directories)
  /\ (storage_sound s ->
      exists details rows1 rows2,
        snd (scan_directory os s directories) = PyList details
        /\ Files (working s2) = Files (working s) ++ rows1 ++ rows2
        /\ Forall2 detail_of_row rows1 details
        /\ Forall2 detail_of_row rows2 details).
Proof.
  intros s1 s2. subst s1 s2.
  split; [by rewrite !scan_directory_details|].
  intros Hs. unfold scan_directory.
  destruct (scan_loop_describes os (walked os directories) s [] Hs)
    as (s1 & details & rows1 & Hrun1 & Hs1 & Hfiles1 & Hrows1).
  rewrite Hrun1. simpl.
  destruct (scan_loop_describes os (walked os directories) s1 [] Hs1)
    as (s2 & details2 & rows2 & Hrun2 & _ & Hfiles2 & Hrows2).
  rewrite Hrun2. simpl in *.
  assert (details2 = details) as ->.
  { pose proof (scan_loop_details os (walked os directories) s []) as Hd1.
    pose proof (scan_loop_details os (walked os directories) s1 []) as Hd2.
    rewrite Hrun1 in Hd1. rewrite Hrun2 in Hd2. simpl in *. congruence. }
  exists details, rows1, rows2.
  repeat split; try done. by rewrite Hfiles2, Hfiles1, <- app_assoc.
Qed.

Lemma rescan_records_every_file_again_witness :
  snd (scan_directory Scenario.os_scan
         (fst (scan_directory Scenario.os_scan Demo.fresh_store ["/w"%string]))
         ["/w"%string])
  = snd (scan_directory Scenario.os_scan Demo.fresh_store ["/w"%string])
  /\ exists details rows1 rows2,
       Files (working
                (fst (scan_directory Scenario.os_scan
                        (fst (scan_directory Scenario.os_scan Demo.fresh_store
                                ["/w"%string]))
                        ["/w"%string])))
       = Files (working Demo.fresh_store) ++ rows1 ++ rows2
       /\ Forall2 detail_of_row rows1 details
       /\ Forall2 detail_of_row rows2 details.
Proof.
  destruct (rescan_records_every_file_again Scenario.os_scan Demo.fresh_store
              ["/w"%string]) as (Hsame & Hrows).
  split; [exact Hsame|].
  destruct (Hrows (Forall_nil_2 _))
    as (details & rows1 & rows2 & _ & Hfiles & H1 & H2).
  exists details, rows1, rows2. split; [exact Hfiles|]. split; assumption.
Defined.

(** ** Kinds of record over a session *)

Ltac stamp_kind :=
  unfold stamped_args;
  first [ left; by repeat split
        | right; left; by repeat split
        | right; right; left; by repeat split
        | right; right; right; left; split; [by repeat eexists|by split]
        | right; right; right; right; by split ].

Lemma dispatch_wrote_stamped (os : OS) (signal : Signal) (m : Monitor) :
  wrote_stamped (db m) (db (state_of (dispatch os signal m))).
Proof.
  destruct signal as [e|e|e|e]; simpl;
    [unfold on_created|unfold on_modified|unfold on_moved|unfold on_deleted];
    repeat case_match; simpl; try (by left); right;
    do 10 eexists; (split; [reflexivity|stamp_kind]).
Qed.

Lemma scan_file_wrote_stamped (os : OS) (a : Store * list pyval)
    (root file : string) :
  wrote_stamped (fst a) (fst (state_of (scan_file os a root file))).
Proof.
  destruct a as [s details]. unfold scan_file.
  repeat case_match; simpl; try (by left); right;
    do 10 eexists; (split; [reflexivity|stamp_kind]).
Qed.

Lemma session_wrote_stamped (os0 : OS) (s : Store) (directories : list string)
    (signals : list (OS * Signal)) :
  rtc wrote_stamped s (db (session os0 s directories signals)).
Proof.
  assert (forall entries a,
            rtc wrote_stamped (fst a)
              (fst (state_of (scan_loop os0 a entries)))) as Hloop.
  { induction entries as [|[root file] entries IH]; intros a; simpl; [done|].
    pose proof (scan_file_wrote_stamped os0 a root file) as Hstep.
    destruct (scan_file os0 a root file) as [a'|e a']; simpl in *.
    - eapply rtc_l; [exact Hstep|apply IH].
    - by apply rtc_once. }
  assert (forall sigs m, rtc wrote_stamped (db m) (db (deliver sigs m)))
    as Hdeliver.
  { induction sigs as [|[os signal] sigs IH]; intros m; simpl; [done|].
    eapply rtc_l; [apply dispatch_wrote_stamped|apply IH]. }
  unfold session, monitor_directories_startup, scan_directory.
  specialize (Hloop (walked os0 directories) (s, [])).
  destruct (state_of _) as [s' details]. simpl in *.
  etrans; [exact Hloop|]. apply (Hdeliver signals {| db := s' |}).
Qed.

Lemma wrote_stamped_pairs (s s' : Store) :
  storage_sound s /\ clean s
  /\ Forall2 stamped (Files (committed s)) (Events (committed s)) ->
  wrote_stamped s s' ->
  storage_sound s' /\ clean s'
  /\ Forall2 stamped (Files (committed s')) (Events (committed s')).
Proof.
  intros (Hs & Hc & Hp)
    [->|(fn & fp & et & ct & mt & dt & ck & u & r & tm & -> & Hkind)]; [done|].
  split; [by apply write_history_sound|].
  split; [apply write_history_clean|].
  rewrite write_history_ok by done. simpl.
  unfold clean in Hc. rewrite <- Hc.
  apply Forall2_app; [done|].
  constructor; [|constructor]. split; [simpl; by rewrite Hc|done].
Qed.

(** X20.  Every record is of one of five kinds, and its event repeats
    one of its own time stamps.  On a storage layer that refuses
    nothing, starting from the empty database (or any store with this
    property), after a session every [Files] row is paired with an event
    such that: a scan or creation event carries the creation time of
    the row; a modification or rename event carries its modification
    time, and the rename names the file name of the row as the new name;
    a deletion event carries its deletion time; and every row whose
    event is not a deletion has the text ["NULL"] as deletion time. *)
Theorem session_events_stamped (os0 : OS) (s : Store)
    (directories : list string) (signals : list (OS * Signal)) :
  storage_sound s ->
  clean s ->
  Forall2 stamped (Files (committed s)) (Events (committed s)) ->
  let t' := committed (db (session os0 s directories signals)) in
  Forall2 stamped (Files t') (Events t')
  /\ Forall2 (fun r e => event_type e <> PyStr "Deletion" ->
                         deletion_time r = PyStr "NULL")
       (Files t') (Events t').
Proof.
  intros Hs Hc Hp t'.
  assert (Forall2 stamped (Files t') (Events t')) as Hp'.
  { assert (forall a b, rtc wrote_stamped a b ->
              storage_sound a /\ clean a
              /\ Forall2 stamped (Files (committed a)) (Events (committed a)) ->
              Forall2 stamped (Files (committed b)) (Events (committed b)))
      as Hrun.
    { induction 1 as [a|a b c Hstep _ IH]; intros Ha; [apply Ha|].
      apply IH. by eapply wrote_stamped_pairs. }
    apply (Hrun s); [apply session_wrote_stamped|done]. }
  split; [done|].
  eapply Forall2_impl; [exact Hp'|].
  intros r e [_ Hkind] Hnot. unfold stamped_args in Hkind.
  destruct Hkind as [(_ & _ & ?)|[(_ & _ & _ & ?)|[(_ & _ & ?)|[(_ & _ & ?)|(? & _)]]]];
    done.
Qed.

Lemma session_events_stamped_witness :
  Forall2 stamped
    (Files (committed
       (db (session Scenario.os_scan Demo.fresh_store ["/w"%string]
              [(Scenario.os_edit, Modified (Demo.file_event "/w/x.txt"));
               (Scenario.os_gone, Deleted (Demo.file_event "/w/x.txt"))]))))
    (Events (committed
       (db (session Scenario.os_scan Demo.fresh_store ["/w"%string]
              [(Scenario.os_edit, Modified (Demo.file_event "/w/x.txt"));
               (Scenario.os_gone, Deleted (Demo.file_event "/w/x.txt"))])))).
Proof.
  refine (proj1 (session_events_stamped Scenario.os_scan Demo.fresh_store
                   ["/w"%string]
                   [(Scenario.os_edit, Modified (Demo.file_event "/w/x.txt"));
                    (Scenario.os_gone, Deleted (Demo.file_event "/w/x.txt"))]
                   (Forall_nil_2 _) eq_refl _)).
  vm_compute. constructor.
Defined.

(** ** File names over a session *)

(** X21.  Every record is named after its path.  If all worlds of a
    session use one basename function, and that function gives back the
    name of every file the scan lists from its joined path, then after
    the session the [filename] of every [Files] row is the basename of
    its [file_path], provided this held before: the lookup by file name
    of the rename handler is a lookup by the basename of the stored
    path. *)
Theorem session_rows_named_after_paths (bn : string -> string) (os0 : OS)
    (s : Store) (directories : list string) (signals : list (OS * Signal)) :
  Forall (fun entry => bn (path_join os0 (fst entry) (snd entry)) = snd entry)
    (walked os0 directories) ->
  Forall (fun sig => basename (fst sig) = bn) signals ->
  names_consistent bn s ->
  names_consistent bn (db (session os0 s directories signals)).
Proof.
  intros Hwalk Hsigs Hinv.
  assert (forall entries a,
            Forall (fun entry => bn (path_join os0 (fst entry) (snd entry))
                                 = snd entry) entries ->
            names_consistent bn (fst a) ->
            names_consistent bn (fst (state_of (scan_loop os0 a entries))))
    as Hloop.
  { induction entries as [|[root file] entries IH]; intros a Hall Ha; simpl;
      [done|].
    apply Forall_cons in Hall as [Hjoin Hall]. simpl in Hjoin.
    assert (names_consistent bn (fst (state_of (scan_file os0 a root file))))
      as Hstep.
    { destruct a as [s0 details]. unfold scan_file.
      repeat case_match; simpl; auto using write_history_named. }
    destruct (scan_file os0 a root file) as [a'|e a']; simpl in *; auto. }
  assert (forall sigs m,
            Forall (fun sig => basename (fst sig) = bn) sigs ->
            names_consistent bn (db m) ->
            names_consistent bn (db (deliver sigs m))) as Hdeliver.
  { induction sigs as [|[os signal] sigs IH]; intros m Hall Hm; simpl; [done|].
    apply Forall_cons in Hall as [Hbn Hall]. simpl in Hbn. subst bn.
    apply IH; [done|].
    destruct signal; simpl;
      auto using on_created_named, on_modified_named, on_moved_named,
        on_deleted_named. }
  unfold session, monitor_directories_startup, scan_directory.
  specialize (Hloop (walked os0 directories) (s, []) Hwalk Hinv).
  destruct (state_of _) as [s' details]. simpl in *.
  by apply (Hdeliver signals {| db := s' |}).
Qed.

Lemma session_rows_named_after_paths_witness :
  names_consistent Demo.posix_basename
    (db (session Scenario.os_scan Demo.fresh_store ["/w"%string]
           [(Scenario.os_move,
             Moved (Demo.move_event "/w/x.txt" "/w/y.txt"))])).
Proof.
  apply (session_rows_named_after_paths Demo.posix_basename Scenario.os_scan
           Demo.fresh_store ["/w"%string]
           [(Scenario.os_move, Moved (Demo.move_event "/w/x.txt" "/w/y.txt"))]).
  - vm_compute. repeat constructor.
  - repeat constructor.
  - split; constructor.
Defined.

(** * The executable registry of the process monitor *)

Section Registry.
Import ProcessMonitor.

Lemma get_executable_id_rows (s : ExeStore) (name path : string) :
  Executables (exe_working s)
    `prefix_of`
  Executables (exe_working (exe_store_of (get_executable_id s name path))).
Proof.
  unfold get_executable_id.
  destruct (head _); simpl; [done|].
  destruct (exe_faults s) as [|[] [|[] rest]]; simpl; try done;
    by apply prefix_app_r.
Qed.

Lemma register_all_rows (calls : list (string * string)) :
  forall s,
    Executables (exe_working s)
      `prefix_of` Executables (exe_working (register_all calls s)).
Proof.
  induction calls as [|[name path] calls IH]; intros s; simpl; [done|].
  etrans; [apply get_executable_id_rows|apply IH].
Qed.

Lemma select_executable_id_prefix (s s' : ExeStore) (name path : string)
    (id : Z) :
  Executables (exe_working s) `prefix_of` Executables (exe_working s') ->
  head (select_executable_id s name path) = Some id ->
  head (select_executable_id s' name path) = Some id.
Proof.
  intros [k Hk] Hhead. unfold select_executable_id in *.
  rewrite Hk, filter_app, map_app, head_app. by rewrite Hhead.
Qed.

Lemma get_executable_id_found (s s1 : ExeStore) (name path : string) (id : Z) :
  get_executable_id s name path = ExeId id s1 ->
  head (select_executable_id s1 name path) = Some id
  /\ exists r, r ∈ Executables (exe_working s1)
               /\ executable_id r = id
               /\ executable_name r = name /\ executable_path r = path.
Proof.
  unfold get_executable_id.
  destruct (head (select_executable_id s name path)) as [id0|] eqn:Hsel.
  - intros [= <- <-]. split; [done|].
    unfold select_executable_id in Hsel.
    destruct (filter _ _) as [|r rows] eqn:Hfilter; [done|].
    simpl in Hsel. simplify_eq. exists r.
    assert (r ∈ filter
              (fun r => Is_true (String.eqb (executable_name r) name
                                 && String.eqb (executable_path r) path))
              (Executables (exe_working s))) as Hin
      by (rewrite Hfilter; left).
    apply list_elem_of_filter in Hin as [Hmatch Hin].
    apply Is_true_true, andb_true_iff in Hmatch as [Hn Hp].
    apply String.eqb_eq in Hn, Hp. done.
  - assert (filter
              (fun r => Is_true (String.eqb (executable_name r) name
                                 && String.eqb (executable_path r) path))
              (Executables (exe_working s)) = []) as Hnone.
    { unfold select_executable_id in Hsel.
      by destruct (filter _ _). }
    destruct (exe_faults s) as [|[] [|[] rest]]; simpl; try done;
      intros [= <- <-];
      (split;
       [ unfold select_executable_id; simpl;
         rewrite filter_app, Hnone; simpl;
         rewrite filter_cons, decide_True;
         [done|simpl; by rewrite !String.eqb_refl]
       | eexists; split; [apply elem_of_app; right; left|done] ]).
Qed.

(** X22.  Get-or-create is stable.  Once [get_executable_id] has
    returned an identifier for a name and path, every later call for the
    same name and path returns that identifier again and changes nothing
    in the store, however many other executables are registered in
    between and whether or not those calls failed. *)
Theorem executable_id_is_stable (s s1 : ExeStore) (name path : string)
    (id : Z) (calls : list (string * string)) :
  get_executable_id s name path = ExeId id s1 ->
  get_executable_id (register_all calls s1) name path
  = ExeId id (register_all calls s1).
Proof.
  intros Hfirst.
  apply get_executable_id_found in Hfirst as [Hsel _].
  unfold get_executable_id.
  by rewrite (select_executable_id_prefix s1 _ name path id
                (register_all_rows calls s1) Hsel).
Qed.

Lemma executable_id_is_stable_witness :
  get_executable_id
    (register_all [("b.exe"%string, "C:\b.exe"%string)]
       (exe_store_of (get_executable_id exe_empty "a.exe" "C:\a.exe")))
    "a.exe" "C:\a.exe"
  = ExeId 1
      (register_all [("b.exe"%string, "C:\b.exe"%string)]
         (exe_store_of (get_executable_id exe_empty "a.exe" "C:\a.exe"))).
Proof.
  exact (executable_id_is_stable exe_empty _ "a.exe" "C:\a.exe" 1
           [("b.exe"%string, "C:\b.exe"%string)] eq_refl).
Defined.

Lemma NoDup_map_injective (A B : Type) (f : A -> B) (l : list A) (x y : A) :
  NoDup (map f l) -> x ∈ l -> y ∈ l -> f x = f y -> x = y.
Proof.
  induction l as [|z l IH]; simpl; intros Hnd Hx Hy Heq.
  - by apply elem_of_nil in Hx.
  - apply NoDup_cons in Hnd as [Hfresh Hnd].
    apply elem_of_cons in Hx as [->|Hx], Hy as [->|Hy]; auto.
    + destruct Hfresh. rewrite Heq.
      apply list_elem_of_In, in_map. by apply list_elem_of_In.
    + destruct Hfresh. rewrite <- Heq.
      apply list_elem_of_In, in_map. by apply list_elem_of_In.
Qed.

Lemma get_executable_id_unique (s : ExeStore) (name path : string) :
  exe_unique s -> exe_unique (exe_store_of (get_executable_id s name path)).
Proof.
  intros [Hpairs Hids]. unfold get_executable_id.
  destruct (head (select_executable_id s name path)) as [id0|] eqn:Hsel;
    [done|].
  assert (filter
            (fun r => Is_true (String.eqb (executable_name r) name
                               && String.eqb (executable_path r) path))
            (Executables (exe_working s)) = []) as Hnone.
  { unfold select_executable_id in Hsel. by destruct (filter _ _). }
  destruct (exe_faults s) as [|[] [|[] rest]]; simpl; try done;
    (split; simpl; rewrite map_app; simpl;
     [ apply NoDup_app; split; [done|]; split; [|apply NoDup_singleton];
       intros pair Hin Hnew; apply list_elem_of_singleton in Hnew as ->;
       apply list_elem_of_In, in_map_iff in Hin as (r & Hr & Hin);
       apply list_elem_of_In in Hin;
       eapply (filter_nil_not_elem_of _ _ r Hnone); [|done];
       injection Hr as -> ->; simpl; by rewrite !String.eqb_refl
     | apply StronglySorted_snoc; [done|apply next_rowid_fresh] ]).
Qed.

Lemma register_all_unique (calls : list (string * string)) :
  forall s, exe_unique s -> exe_unique (register_all calls s).
Proof.
  induction calls as [|[name path] calls IH]; intros s Hs; simpl; [done|].
  by apply IH, get_executable_id_unique.
Qed.

(** X23.  The registry never holds an executable twice, and identifiers
    identify executables.  From a table without duplicates (such as the
    empty one), after any series of calls no two rows have the same name
    and path, and two calls return the same identifier exactly when they
    were made for the same name and path. *)
Theorem registry_ids_identify_executables (s s1 s2 : ExeStore)
    (calls : list (string * string)) (n1 p1 n2 p2 : string) (id1 id2 : Z) :
  exe_unique s ->
  get_executable_id s n1 p1 = ExeId id1 s1 ->
  get_executable_id (register_all calls s1) n2 p2 = ExeId id2 s2 ->
  exe_unique s2 /\ (id1 = id2 <-> (n1, p1) = (n2, p2)).
Proof.
  intros Hs H1 H2.
  assert (exe_unique s1) as Hs1.
  { pose proof (get_executable_id_unique s n1 p1 Hs) as Hu.
    by rewrite H1 in Hu. }
  assert (exe_unique s2) as Hs2.
  { pose proof (get_executable_id_unique _ n2 p2
                  (register_all_unique calls s1 Hs1)) as Hu.
    by rewrite H2 in Hu. }
  split; [done|].
  destruct (get_executable_id_found _ _ _ _ _ H1) as (Hsel1 & r1 & Hr1 & Hid1 & Hn1 & Hp1).
  destruct (get_executable_id_found _ _ _ _ _ H2) as (_ & r2 & Hr2 & Hid2 & Hn2 & Hp2).
  split.
  - intros Hid.
    assert (r1 ∈ Executables (exe_working s2)) as Hr1'.
    { pose proof (register_all_rows calls s1) as [k1 Hk1].
      pose proof (get_executable_id_rows (register_all calls s1) n2 p2)
        as [k2 Hk2].
      rewrite H2 in Hk2. simpl in Hk2. rewrite Hk2, Hk1.
      apply elem_of_app; left. apply elem_of_app; by left. }
    assert (r1 = r2) as ->; [|congruence].
    eapply (NoDup_map_injective _ _ executable_id);
      [apply StronglySorted_lt_NoDup, Hs2|done|done|congruence].
  - intros [= <- <-].
    pose proof (select_executable_id_prefix s1 _ n1 p1 id1
                  (register_all_rows calls s1) Hsel1) as Hsel.
    unfold get_executable_id in H2. rewrite Hsel in H2. congruence.
Qed.

Lemma registry_ids_identify_executables_witness :
  exe_unique
    (exe_store_of
       (get_executable_id
          (exe_store_of (get_executable_id exe_empty "a.exe" "C:\a.exe"))
          "b.exe" "C:\b.exe")).
Proof.
  exact (proj1 (registry_ids_identify_executables exe_empty
                  (exe_store_of (get_executable_id exe_empty "a.exe" "C:\a.exe"))
                  (exe_store_of
                     (get_executable_id
                        (exe_store_of
                           (get_executable_id exe_empty "a.exe" "C:\a.exe"))
                        "b.exe" "C:\b.exe"))
                  [] "a.exe" "C:\a.exe" "b.exe" "C:\b.exe" 1 2
                  (conj NoDup_nil_2 (SSorted_nil _)) eq_refl eq_refl)).
Defined.

End Registry.

(** * The packet log of the network monitor *)

Section PacketLog.
Import NetworkMonitor.

Lemma log_packet_step (clock : string) (s : NetStore) (packet : Packet)
    (blacklist : gset string) :
  net_clean s ->
  let s' := log_packet clock s packet blacklist in
  net_clean s'
  /\ exists rows,
       NetworkTraffic (net_committed s') = NetworkTraffic (net_committed s) ++ rows
       /\ Forall (fun r => exists ip, source_ip r = PyStr ip /\ ip ∈ blacklist)
            rows.
Proof.
  intros Hc. unfold net_clean in Hc. unfold log_packet.
  assert (net_clean s /\
          exists rows,
            NetworkTraffic (net_committed s)
            = NetworkTraffic (net_committed s) ++ rows
            /\ Forall (fun r => exists ip, source_ip r = PyStr ip
                                           /\ ip ∈ blacklist) rows) as Hsame.
  { split; [done|]. exists []. by rewrite app_nil_r. }
  destruct (ip_layer packet) as [[src dst]|]; [|done].
  case_bool_decide as Hin; [|done].
  destruct (tcp_layer packet) as [[? ?]|], (udp_layer packet) as [[? ?]|];
    unfold insert_file;
    destruct (net_faults s) as [|[] [|[] rest]]; simpl;
    (split; [done|]);
    first [ exists []; by rewrite app_nil_r
          | eexists [_]; rewrite Hc; split; [reflexivity|];
            constructor; [by exists src|constructor] ].
Qed.

(** X24.  Only packets from listed sources are logged.  On a
    connection with nothing pending, the sniffer only appends to
    [NetworkTraffic], and the source address of every row it appends is
    an entry of the loaded blacklist; the destination address plays no
    part. *)
Theorem sniffer_logs_only_listed_sources (file : option (list string))
    (packets : list (string * Packet)) (s : NetStore) :
  net_clean s ->
  let s' := start_packet_sniffer file packets s in
  net_clean s'
  /\ exists rows,
       NetworkTraffic (net_committed s') = NetworkTraffic (net_committed s) ++ rows
       /\ Forall (fun r => exists ip, source_ip r = PyStr ip
                                      /\ ip ∈ load_blacklist file) rows.
Proof.
  unfold start_packet_sniffer. generalize (load_blacklist file) as blacklist.
  intros blacklist. revert s.
  induction packets as [|[clock packet] packets IH]; intros s Hc; simpl.
  { split; [done|]. exists []. by rewrite app_nil_r. }
  destruct (log_packet_step clock s packet blacklist Hc)
    as (Hc1 & rows1 & Hrows1 & Hall1).
  destruct (IH _ Hc1) as (Hc2 & rows2 & Hrows2 & Hall2).
  split; [done|]. exists (rows1 ++ rows2).
  split; [by rewrite Hrows2, Hrows1, app_assoc|by apply Forall_app].
Qed.

Lemma sniffer_logs_only_listed_sources_witness :
  net_clean
    (start_packet_sniffer (Some ["10.0.0.5"%string])
       [("2024-10-05 10:00:00"%string,
         {| ip_layer := Some ("10.0.0.5"%string, "192.168.1.1"%string);
            tcp_layer := Some (12345, 80); udp_layer := None;
            packet_len := 40 |})]
       net_empty).
Proof.
  exact (proj1 (sniffer_logs_only_listed_sources (Some ["10.0.0.5"%string])
                  [("2024-10-05 10:00:00"%string,
                    {| ip_layer := Some ("10.0.0.5"%string, "192.168.1.1"%string);
                       tcp_layer := Some (12345, 80); udp_layer := None;
                       packet_len := 40 |})]
                  net_empty eq_refl)).
Defined.

(** X25.  Without a blacklist nothing is logged.  When the blacklist
    file does not exist, the loaded list is empty and the sniffer leaves
    the store exactly as it was whatever it sniffs (the warning printed
    says that all traffic is monitored; none is recorded); the same
    holds for any run in which no packet has an IP layer with a listed
    source, packets sent to a listed address included. *)
Theorem sniffer_silent_without_listed_source (file : option (list string))
    (packets : list (string * Packet)) (s : NetStore) :
  file = None
  \/ Forall (fun p => ~ from_blacklisted (load_blacklist file) (snd p)) packets ->
  start_packet_sniffer file packets s = s.
Proof.
  intros Hwhy.
  assert (Forall (fun p => ~ from_blacklisted (load_blacklist file) (snd p))
            packets) as Hnone.
  { destruct Hwhy as [->|?]; [|done].
    apply Forall_forall. intros p _ (src & dst & _ & Hin). simpl in Hin.
    set_solver. }
  clear Hwhy. unfold start_packet_sniffer.
  revert Hnone. generalize (load_blacklist file) as blacklist.
  intros blacklist. revert s.
  induction packets as [|[clock packet] packets IH]; intros s Hnone; simpl;
    [done|].
  apply Forall_cons in Hnone as [Hp Hnone]. simpl in Hp.
  assert (log_packet clock s packet blacklist = s) as ->; [|by apply IH].
  unfold log_packet.
  destruct (ip_layer packet) as [[src dst]|] eqn:Hip; [|done].
  case_bool_decide as Hin; [|done].
  destruct Hp. by exists src, dst.
Qed.

Lemma sniffer_silent_without_listed_source_witness :
  start_packet_sniffer None
    [("2024-10-05 10:00:00"%string,
      {| ip_layer := Some ("10.0.0.5"%string, "192.168.1.1"%string);
         tcp_layer := Some (12345, 80); udp_layer := None;
         packet_len := 40 |})]
    net_empty
  = net_empty.
Proof.
  apply (sniffer_silent_without_listed_source None
           [("2024-10-05 10:00:00"%string,
             {| ip_layer := Some ("10.0.0.5"%string, "192.168.1.1"%string);
                tcp_layer := Some (12345, 80); udp_layer := None;
                packet_len := 40 |})]
           net_empty).
  left. reflexivity.
Defined.

(** X26.  What is logged for a packet from a listed source.  When the
    storage layer accepts the insert, exactly one row is committed, with
    the addresses of the IP layer, the length of the packet and the time
    of capture; it is marked "TCP" with the TCP ports whenever the
    packet has a TCP layer (also when it has a UDP layer as well), "UDP"
    with the UDP ports when it has only a UDP layer, and has null
    protocol and null ports when it has neither (ICMP, say): such a
    packet is logged all the same. *)
Theorem listed_source_packet_row (clock : string) (s : NetStore)
    (packet : Packet) (blacklist : gset string) (src dst : string) :
  ip_layer packet = Some (src, dst) ->
  src ∈ blacklist ->
  Forall (fun b => b = false) (net_faults s) ->
  exists row,
    NetworkTraffic (net_committed (log_packet clock s packet blacklist))
    = NetworkTraffic (net_working s) ++ [row]
    /\ source_ip row = PyStr src /\ destination_ip row = PyStr dst
    /\ packet_size row = PyInt (packet_len packet)
    /\ timestamp row = PyStr clock
    /\ (forall sport dport, tcp_layer packet = Some (sport, dport) ->
          protocol row = PyStr "TCP" /\ source_port row = PyInt sport
          /\ destination_port row = PyInt dport)
    /\ (forall sport dport,
          tcp_layer packet = None -> udp_layer packet = Some (sport, dport) ->
          protocol row = PyStr "UDP" /\ source_port row = PyInt sport
          /\ destination_port row = PyInt dport)
    /\ (tcp_layer packet = None -> udp_layer packet = None ->
        protocol row = PyNone /\ source_port row = PyNone
        /\ destination_port row = PyNone).
Proof.
  intros Hip Hin Hsound. unfold log_packet. rewrite Hip.
  rewrite bool_decide_eq_true_2 by done.
  assert (forall a b c,
            NetworkTraffic (net_committed
              (insert_file s (PyStr src) (PyStr dst) a b c
                 (PyInt (packet_len packet)) (PyStr clock)))
            = NetworkTraffic (net_working s)
                ++ [{| traffic_id :=
                         next_rowid (seq_NetworkTraffic (net_working s))
                           (map traffic_id (NetworkTraffic (net_working s)));
                       source_ip := PyStr src; destination_ip := PyStr dst;
                       source_port := a; destination_port := b;
                       protocol := c;
                       packet_size := PyInt (packet_len packet);
                       timestamp := PyStr clock |}]) as Hins.
  { intros a b c. unfold insert_file.
    destruct (net_faults s) as [|[] [|[] rest]]; simpl; try done;
      apply Forall_cons in Hsound as [? Hsound]; try done;
      by apply Forall_cons in Hsound as [? _]. }
  destruct (tcp_layer packet) as [[ts td]|], (udp_layer packet) as [[us ud]|];
    rewrite Hins; eexists; (split; [reflexivity|]); simpl;
    repeat split; try done; intros; simplify_eq; done.
Qed.

Lemma listed_source_packet_row_witness :
  exists row,
    NetworkTraffic
      (net_committed
         (log_packet "2024-10-05 10:00:00" net_empty
            {| ip_layer := Some ("10.0.0.5"%string, "192.168.1.1"%string);
               tcp_layer := None; udp_layer := None; packet_len := 28 |}
            {["10.0.0.5"%string]}))
    = NetworkTraffic (net_working net_empty) ++ [row]
    /\ protocol row = PyNone.
Proof.
  destruct (listed_source_packet_row "2024-10-05 10:00:00" net_empty
              {| ip_layer := Some ("10.0.0.5"%string, "192.168.1.1"%string);
                 tcp_layer := None; udp_layer := None; packet_len := 28 |}
              {["10.0.0.5"%string]} "10.0.0.5" "192.168.1.1"
              eq_refl ltac:(set_solver) (Forall_nil_2 _))
    as (row & Hrows & _ & _ & _ & _ & _ & _ & Hnull).
  exists row. split; [exact Hrows|]. exact (proj1 (Hnull eq_refl eq_refl)).
Defined.

End PacketLog.
